(** * Dashboard application: relationship maintenance, attendance upsert
    and report aggregation

    A shallow embedding of the data-handling code of the dashboard
    (the functions of [AppContent] and [ReportsPage]) together with the
    properties stated for it.

    Modelling conventions.
    - A Firestore collection is a finite map from document id to document
      data.  The arrays [students], [classes], ... that the components
      receive are the snapshot of the collection: one entry
      [{id: doc.id, ...doc.data()}] per document, here a pair [(id, data)].
      Every operation closes over the snapshot taken when it starts.
    - [null] and [undefined] are [None]; a JavaScript condition on a
      string is [truthy] (the empty string is falsy).
    - A stored document is its form fields together with its stamps:
      [createdAt], [updatedAt], and the [id] field that a written-back
      snapshot entry carries.  [Timestamp.now()] reads a clock that is
      part of the store.
    - A number is a binary64 double, with the IEEE operations of the
      primitive floats; [whole z] is the double of the whole number [z].
    - An object literal used as an accumulator ([reduce(..., {})]) is the
      finite map of its own properties; the names that it inherits from
      [Object.prototype] ([__proto__], [constructor], [toString], ...) are
      looked up there, as the language does.
    - Store requests succeed unless the store itself rejects them
      ([updateDoc] on a missing document); toasts and loading flags are
      not modelled. *)

From Stdlib Require Import ZArith List Bool Ascii Floats.
From stdpp Require Import gmap strings list fin_maps pretty.

Local Open Scope Z_scope.

(** Decimal literals stand for the nearest double, as in JavaScript. *)
Set Warnings "-inexact-float".

(** ** JavaScript truthiness on (nullable) strings *)

Definition truthy (s : string) : bool := bool_decide (s ≠ "").

Definition truthyOpt (o : option string) : bool :=
  match o with
  | Some s => truthy s
  | None => false
  end.

(** ** Documents *)

Module Student.
Record t := mk {
  name : string;
  phone : string;
  email : option string;
  paid : bool;
  classId : option string;
  studentType : string
}.

(** [{ ...student, classId: c }] *)
Definition withClassId (c : option string) (s : t) : t :=
  {| name := name s; phone := phone s; email := email s; paid := paid s;
     classId := c; studentType := studentType s |}.

(** The object handed to [updateStudentDoc]: the fields it has, and
    whether it has an [id] field (a snapshot entry has one, the object of
    the edit form has none). *)
Record patch := mkPatch {
  newName : option string;
  newPhone : option string;
  newEmail : option (option string);
  newPaid : option bool;
  newClassId : option (option string);
  newStudentType : option string;
  carriesId : bool
}.

(** An object with all six fields of [s]. *)
Definition entire (withId : bool) (s : t) : patch :=
  {| newName := Some (name s); newPhone := Some (phone s);
     newEmail := Some (email s); newPaid := Some (paid s);
     newClassId := Some (classId s);
     newStudentType := Some (studentType s); carriesId := withId |}.

(** Field-wise merge performed by [updateDoc]. *)
Definition apply (p : patch) (s : t) : t :=
  {| name := default (name s) (newName p);
     phone := default (phone s) (newPhone p);
     email := default (email s) (newEmail p);
     paid := default (paid s) (newPaid p);
     classId := default (classId s) (newClassId p);
     studentType := default (studentType s) (newStudentType p) |}.
End Student.

Module Class.
Record t := mk {
  name : string;
  description : string;
  students : list string;
  instructors : list string
}.

(** The object handed to [updateClass]: any subset of the fields. *)
Record patch := mkPatch {
  newName : option string;
  newDescription : option string;
  newStudents : option (list string);
  newInstructors : option (list string)
}.

(** [{ students: ids }] *)
Definition studentsOnly (ids : list string) : patch :=
  {| newName := None; newDescription := None;
     newStudents := Some ids; newInstructors := None |}.

(** Field-wise merge performed by [updateDoc]. *)
Definition apply (p : patch) (c : t) : t :=
  {| name := default (name c) (newName p);
     description := default (description c) (newDescription p);
     students := default (students c) (newStudents p);
     instructors := default (instructors c) (newInstructors p) |}.
End Class.

(** ** The record store adapter ([useFirestore]) *)

Inductive Collection := Students | Classes.

(** Requests sent to the store, oldest first. *)
Inductive Request :=
  | AddDoc (c : Collection) (id : string)
  | UpdateDoc (c : Collection) (id : string)
  | DeleteDoc (c : Collection) (id : string).

(** What a stored document holds beside the fields of its form: the
    [createdAt] stamp of [addDocument], the [updatedAt] stamp of
    [updateDocument], and an [id] field once a snapshot entry
    [{ id, ...data }] has been written back to it; that field then holds
    the document's own id. *)
Record Stamps := mkStamps {
  createdAt : option Z;
  updatedAt : option Z;
  idField : bool
}.

Definition noStamps : Stamps :=
  {| createdAt := None; updatedAt := None; idField := false |}.

(** The two collections with the stamps of their documents, the requests
    sent so far, and the clock: [clock n] is what [Timestamp.now()] reads
    when the request number [n] is built. *)
Record Store := mkStore {
  studentsCol : gmap string Student.t;
  classesCol : gmap string Class.t;
  requests : list Request;
  studentStamps : gmap string Stamps;
  classStamps : gmap string Stamps;
  clock : nat → Z
}.

(** [Timestamp.now()] *)
Definition now (st : Store) : Z := clock st (length (requests st)).

(** [snapshot.docs.map(doc => ({ id: doc.id, ...doc.data() }))] *)
Definition snapshot {A} (col : gmap string A) : list (string * A) :=
  map_to_list col.

(** [arr.find(x => x.id === id)] where [id] may be [null]. *)
Definition findById {A} (id : option string) (arr : list (string * A))
  : option (string * A) :=
  find (fun x => bool_decide (Some (fst x) = id)) arr.

(** [updateDoc] rejects when the document does not exist; the hook
    catches the rejection and the collection is left as it was. *)
Definition updateIn {A} (id : string) (f : A → A) (col : gmap string A)
  : gmap string A :=
  match col !! id with
  | Some d => <[id := f d]> col
  | None => col
  end.

(** [{ ...newDoc, createdAt: Timestamp.now() }] *)
Definition created (t : Z) : Stamps :=
  {| createdAt := Some t; updatedAt := None; idField := false |}.

(** [{ ...updatedData, updatedAt: Timestamp.now() }] merged into a
    document with the stamps [m]; [withId] tells whether [updatedData]
    has an [id] field. *)
Definition touched (t : Z) (withId : bool) (m : Stamps) : Stamps :=
  {| createdAt := createdAt m; updatedAt := Some t;
     idField := idField m || withId |}.

(** The stamps after [updateDoc] of the document [id] of the collection
    [col]: rewritten when the document exists, left alone when the store
    rejects the request. *)
Definition stampIn {A} (id : string) (f : Stamps → Stamps)
  (col : gmap string A) (stamps : gmap string Stamps) : gmap string Stamps :=
  match col !! id with
  | Some _ => <[id := f (default noStamps (stamps !! id))]> stamps
  | None => stamps
  end.

(** [addDocument] of the students collection; [newId] is the id the
    store assigns to the new document, which the hook returns. *)
Definition addStudentDoc (newId : string) (newDoc : Student.t) (st : Store)
  : string * Store :=
  (newId,
   {| studentsCol := <[newId := newDoc]> (studentsCol st);
      classesCol := classesCol st;
      requests := requests st ++ [AddDoc Students newId];
      studentStamps := <[newId := created (now st)]> (studentStamps st);
      classStamps := classStamps st;
      clock := clock st |}).

(** [updateDocument] of the students collection. *)
Definition updateStudentDoc (id : string) (updatedData : Student.patch)
  (st : Store) : Store :=
  {| studentsCol := updateIn id (Student.apply updatedData) (studentsCol st);
     classesCol := classesCol st;
     requests := requests st ++ [UpdateDoc Students id];
     studentStamps :=
       stampIn id (touched (now st) (Student.carriesId updatedData))
         (studentsCol st) (studentStamps st);
     classStamps := classStamps st;
     clock := clock st |}.

Definition deleteStudentDoc (id : string) (st : Store) : Store :=
  {| studentsCol := delete id (studentsCol st);
     classesCol := classesCol st;
     requests := requests st ++ [DeleteDoc Students id];
     studentStamps := delete id (studentStamps st);
     classStamps := classStamps st;
     clock := clock st |}.

(** [updateDocument] of the classes collection. *)
Definition updateClassDoc (id : string) (updatedData : Class.patch)
  (st : Store) : Store :=
  {| studentsCol := studentsCol st;
     classesCol := updateIn id (Class.apply updatedData) (classesCol st);
     requests := requests st ++ [UpdateDoc Classes id];
     studentStamps := studentStamps st;
     classStamps :=
       stampIn id (touched (now st) false) (classesCol st) (classStamps st);
     clock := clock st |}.

Definition deleteClassDoc (id : string) (st : Store) : Store :=
  {| studentsCol := studentsCol st;
     classesCol := delete id (classesCol st);
     requests := requests st ++ [DeleteDoc Classes id];
     studentStamps := studentStamps st;
     classStamps := delete id (classStamps st);
     clock := clock st |}.

(** ** Relationship maintenance ([AppContent]) *)

Definition addStudent (newId : string) (newStudent : Student.t) (st : Store)
  : Store :=
  let classes := snapshot (classesCol st) in
  let '(studentId, st1) := addStudentDoc newId newStudent st in
  if truthy studentId && truthyOpt (Student.classId newStudent) then
    match findById (Student.classId newStudent) classes with
    | Some (cid, currentClass) =>
        let updatedStudentsInClass :=
          Class.students currentClass ++ [studentId] in
        updateClassDoc cid (Class.studentsOnly updatedStudentsInClass) st1
    | None => st1
    end
  else st1.

Definition updateStudent (studentId : string) (updatedData : Student.t)
  (st : Store) : Store :=
  let students := snapshot (studentsCol st) in
  let classes := snapshot (classesCol st) in
  let oldStudent := findById (Some studentId) students in
  let oldClassId :=
    match oldStudent with
    | Some (_, s) => Student.classId s
    | None => None
    end in
  let newClassId := Student.classId updatedData in
  let st1 :=
    updateStudentDoc studentId (Student.entire false updatedData) st in
  if bool_decide (oldClassId ≠ newClassId) then
    let st2 :=
      if truthyOpt oldClassId then
        match findById oldClassId classes with
        | Some (cid, oldClass) =>
            let updatedStudentsInOldClass :=
              filter (fun id => id ≠ studentId) (Class.students oldClass) in
            updateClassDoc cid
              (Class.studentsOnly updatedStudentsInOldClass) st1
        | None => st1
        end
      else st1 in
    if truthyOpt newClassId then
      match findById newClassId classes with
      | Some (cid, newClass) =>
          let updatedStudentsInNewClass :=
            Class.students newClass ++ [studentId] in
          updateClassDoc cid
            (Class.studentsOnly updatedStudentsInNewClass) st2
      | None => st2
      end
    else st2
  else st1.

Definition deleteStudent (studentId : string) (st : Store) : Store :=
  let students := snapshot (studentsCol st) in
  let classes := snapshot (classesCol st) in
  let studentToDelete := findById (Some studentId) students in
  let classIdOfStudent :=
    match studentToDelete with
    | Some (_, s) => Student.classId s
    | None => None
    end in
  let st1 := deleteStudentDoc studentId st in
  if truthyOpt classIdOfStudent then
    match findById classIdOfStudent classes with
    | Some (cid, currentClass) =>
        let updatedStudentsInClass :=
          filter (fun id => id ≠ studentId) (Class.students currentClass) in
        updateClassDoc cid (Class.studentsOnly updatedStudentsInClass) st1
    | None => st1
    end
  else st1.

Definition updateClass (classId : string) (updatedData : Class.patch)
  (st : Store) : Store :=
  updateClassDoc classId updatedData st.

(** [handleSubmit] of [AssignStudentsToClassModal], for the class [classId]
    and the ticked [selectedStudentIds]. *)
Definition assignStudentsToClass (classId : string)
  (selectedStudentIds : list string) (st : Store) : Store :=
  updateClass classId (Class.studentsOnly selectedStudentIds) st.

(** [students.filter(s => s.classId === classId)] *)
Definition studentsInClass (classId : string)
  (students : list (string * Student.t)) : list (string * Student.t) :=
  filter (fun x => Student.classId (snd x) = Some classId) students.

(** [for (const student of studentsInClass)
      await updateStudentDoc(student.id, { ...student, classId: null })] *)
Definition clearClassIds (studentsInClass : list (string * Student.t))
  (st : Store) : Store :=
  fold_left
    (fun acc student =>
       updateStudentDoc (fst student)
         (Student.entire true (Student.withClassId None (snd student))) acc)
    studentsInClass st.

Definition deleteClass (classId : string) (st : Store) : Store :=
  let students := snapshot (studentsCol st) in
  let st1 := clearClassIds (studentsInClass classId students) st in
  deleteClassDoc classId st1.

(** ** Attendance upsert ([addAttendance]) *)

Module Attendance.
(** A field of a stored attendance document. *)
Inductive value :=
  | VStr (s : string)
  | VTime (t : Z).

(** [newAttendanceRecord]; [date] is the [Date], in milliseconds since
    the epoch. *)
Record record := mk {
  studentId : string;
  classId : string;
  instructorId : string;
  date : Z;
  status : string
}.

(** [{ ...newAttendanceRecord }] *)
Definition spread (r : record) : gmap string value :=
  list_to_map
    [("studentId", VStr (studentId r)); ("classId", VStr (classId r));
     ("instructorId", VStr (instructorId r)); ("date", VTime (date r));
     ("status", VStr (status r))].
End Attendance.

(** [setDoc(ref, data, { merge: true })]: the fields of [data] replace
    the stored ones, the other stored fields stay, and the document is
    created when it does not exist. *)
Definition setDocMerge {V} (id : string) (data : gmap string V)
  (col : gmap string (gmap string V)) : gmap string (gmap string V) :=
  <[id := data ∪ default ∅ (col !! id)]> col.

Section AttendanceUpsert.
(** [d.toISOString().split('T')[0]]: the calendar day of a [Date]. *)
Variable isoDay : Z → string.

Definition attendanceDocId (r : Attendance.record) : string :=
  Attendance.studentId r +:+ "-" +:+ Attendance.classId r +:+ "-"
  +:+ Attendance.instructorId r +:+ "-" +:+ isoDay (Attendance.date r).

(** The object written by [addAttendance]:
    [{ ...newAttendanceRecord, date: Timestamp.fromDate(date),
       createdAt: Timestamp.now(), updatedAt: Timestamp.now() }];
    [nowCreated] and [nowUpdated] are the two readings of the clock. *)
Definition attendanceData (nowCreated nowUpdated : Z)
  (newAttendanceRecord : Attendance.record) : gmap string Attendance.value :=
  <["updatedAt" := Attendance.VTime nowUpdated]>
    (<["createdAt" := Attendance.VTime nowCreated]>
       (<["date" := Attendance.VTime (Attendance.date newAttendanceRecord)]>
          (Attendance.spread newAttendanceRecord))).

Definition addAttendance (nowCreated nowUpdated : Z)
  (newAttendanceRecord : Attendance.record)
  (attendance : gmap string (gmap string Attendance.value))
  : gmap string (gmap string Attendance.value) :=
  setDocMerge (attendanceDocId newAttendanceRecord)
    (attendanceData nowCreated nowUpdated newAttendanceRecord)
    attendance.

(** The stored document [d] is about the student, class, instructor and
    calendar day of [r]. *)
Definition sameSession (r : Attendance.record)
  (d : gmap string Attendance.value) : Prop :=
  d !! "studentId" = Some (Attendance.VStr (Attendance.studentId r))
  ∧ d !! "classId" = Some (Attendance.VStr (Attendance.classId r))
  ∧ d !! "instructorId" = Some (Attendance.VStr (Attendance.instructorId r))
  ∧ ∃ t, d !! "date" = Some (Attendance.VTime t)
         ∧ isoDay t = isoDay (Attendance.date r).

(** Every document of the collection sits at the id computed from its
    own fields, as the documents written by [addAttendance] do. *)
Definition keyedBySession
  (attendance : gmap string (gmap string Attendance.value)) : Prop :=
  ∀ k d, attendance !! k = Some d →
    ∃ r, sameSession r d ∧ k = attendanceDocId r.
End AttendanceUpsert.

(** ** Reports ([ReportsPage]) *)

(** A JavaScript number is a binary64 double.  The amounts come from
    [parseFloat] on the text of a number field; the literals below are
    read as JavaScript reads them, to the nearest double. *)

Module Payment.
Record t := mk {
  studentId : string;
  courseId : option string;
  amount : float;
  discount : float;
  status : string;
  notes : string
}.
End Payment.

Module Expense.
Record t := mk {
  description : string;
  amount : float;
  category : option string
}.
End Expense.

Module Course.
Record t := mk {
  name : string;
  price : float;
  description : string
}.
End Course.

Definition totalRevenue (payments : list (string * Payment.t)) : float :=
  fold_left (fun sum payment => (sum + Payment.amount (snd payment))%float)
    payments 0%float.

Definition totalExpenses (expenses : list (string * Expense.t)) : float :=
  fold_left (fun sum expense => (sum + Expense.amount (snd expense))%float)
    expenses 0%float.

Definition netIncome (payments : list (string * Payment.t))
  (expenses : list (string * Expense.t)) : float :=
  (totalRevenue payments - totalExpenses expenses)%float.

(** The bucket of expenses without a category. *)
Definition uncategorized : string := "غير مصنف".

(** [expense.category || uncategorized] *)
Definition categoryOf (expense : Expense.t) : string :=
  if truthyOpt (Expense.category expense)
  then default uncategorized (Expense.category expense)
  else uncategorized.

(** [x || 0] on a number: [NaN], [0] and [-0] are falsy. *)
Definition orZero (x : float) : float :=
  if is_nan x || is_zero x then 0%float else x.

(** The property names that an object made by [{}] inherits from
    [Object.prototype]. *)
Definition inheritedNames : list string :=
  ["constructor"; "__defineGetter__"; "__defineSetter__"; "hasOwnProperty";
   "__lookupGetter__"; "__lookupSetter__"; "isPrototypeOf";
   "propertyIsEnumerable"; "toString"; "valueOf"; "__proto__";
   "toLocaleString"].

(** An own property of the accumulator object: a number, or the string
    that [+] makes of an inherited function (or of a string) and a
    number; the text of the string is not modelled. *)
Inductive Value := Num (x : float) | Text.

(** [acc[key] = (acc[key] || 0) + amount] on an object that started as
    [{}].  An own number is added to.  A name that is not an own property
    is looked up in [Object.prototype]: the inherited value is a function
    or, for [__proto__], the prototype itself, which is truthy, so [+]
    concatenates and the result is a string; the assignment then makes an
    own property, except for [__proto__], whose setter ignores a
    string. *)
Definition addTo (key : string) (amount : float) (acc : gmap string Value)
  : gmap string Value :=
  match acc !! key with
  | Some (Num value) => <[key := Num (orZero value + amount)]> acc
  | Some Text => <[key := Text]> acc
  | None =>
      if bool_decide (key = "__proto__") then acc
      else if bool_decide (key ∈ inheritedNames) then <[key := Text]> acc
      else <[key := Num (0 + amount)]> acc
  end.

Definition expensesByCategory (expenses : list (string * Expense.t))
  : gmap string Value :=
  fold_left
    (fun acc expense =>
       let category := categoryOf (snd expense) in
       addTo category (Expense.amount (snd expense)) acc)
    expenses ∅.

Definition revenueByCourse (payments : list (string * Payment.t))
  (courses : list (string * Course.t)) : gmap string Value :=
  fold_left
    (fun acc payment =>
       if truthyOpt (Payment.courseId (snd payment)) then
         match findById (Payment.courseId (snd payment)) courses with
         | Some (_, course) =>
             addTo (Course.name course) (Payment.amount (snd payment)) acc
         | None => acc
         end
       else acc)
    payments ∅.

(** The numbers among the values of [Object.entries(acc)]; the order of
    the entries is not modelled. *)
Definition numbers (acc : gmap string Value) : list float :=
  omap (fun entry => match snd entry with Num x => Some x | Text => None end)
    (map_to_list acc).

(** ** Export of the students of the selected classes *)

(** A row of the exported table: student name, phone number, e-mail,
    payment status and class. *)
Record Row := mkRow {
  studentName : string;
  phoneNumber : string;
  emailAddress : string;
  paymentStatus : string;
  className : string
}.

Definition paidLabel : string := "مدفوع".
Definition unpaidLabel : string := "غير مدفوع".

Definition rowOf (student : Student.t) (selectedClass : Class.t) : Row :=
  {| studentName := Student.name student;
     phoneNumber := Student.phone student;
     emailAddress :=
       if truthyOpt (Student.email student)
       then default "" (Student.email student) else "";
     paymentStatus := if Student.paid student then paidLabel else unpaidLabel;
     className := Class.name selectedClass |}.

(** The state of the export loop: the [Set] [exportedStudents], in
    insertion order, and the array [dataToExport]. *)
Definition ExportState : Type := list string * list Row.

(** The body of [selectedClass.students.forEach]. *)
Definition exportStudent (students : list (string * Student.t))
  (selectedClass : Class.t) (acc : ExportState) (studentId : string)
  : ExportState :=
  let '(exportedStudents, dataToExport) := acc in
  if bool_decide (studentId ∈ exportedStudents) then acc
  else
    match findById (Some studentId) students with
    | Some (_, student) =>
        (exportedStudents ++ [studentId],
         dataToExport ++ [rowOf student selectedClass])
    | None => acc
    end.

(** The body of [selectedClassIds.forEach]. *)
Definition exportClass (classes : list (string * Class.t))
  (students : list (string * Student.t)) (acc : ExportState)
  (classId : string) : ExportState :=
  match findById (Some classId) classes with
  | Some (_, selectedClass) =>
      fold_left (exportStudent students selectedClass)
        (Class.students selectedClass) acc
  | None => acc
  end.

Definition collectExport (selectedClassIds : list string)
  (classes : list (string * Class.t)) (students : list (string * Student.t))
  : ExportState :=
  fold_left (exportClass classes students) selectedClassIds ([], []).

(** What the handler does in the end. *)
Inductive ExportOutcome :=
  | NoClassSelected
  | NothingToExport
  | ExportToCsv (rows : list Row).

Definition handleExportStudentsByClass (selectedClassIds : list string)
  (classes : list (string * Class.t)) (students : list (string * Student.t))
  : ExportOutcome :=
  if bool_decide (length selectedClassIds = 0%nat) then NoClassSelected
  else
    let dataToExport := snd (collectExport selectedClassIds classes students) in
    if bool_decide (0 < length dataToExport)%nat then ExportToCsv dataToExport
    else NothingToExport.
(** ** What each student-path operation does to the two collections *)

(** The student of [st] with id [sid] points at this class (if any). *)
Definition classIdOf (st : Store) (sid : string) : option string :=
  studentsCol st !! sid ≫= Student.classId.

(** A class document whose [students] list went through [f]. *)
Definition withStudents (f : list string → list string) (c : Class.t)
  : Class.t :=
  Class.apply (Class.studentsOnly (f (Class.students c))) c.

(** ** Consistency of the student/class relation *)

(** [student.classId == c.id] iff [c.students] contains [student.id],
    for every student and class document in the store. *)
Definition agree (st : Store) : Prop :=
  ∀ sid s cid c,
    studentsCol st !! sid = Some s →
    classesCol st !! cid = Some c →
    Student.classId s = Some cid ↔ sid ∈ Class.students c.

(** The [students] field of every class is a set: no id occurs twice. *)
Definition duplicateFree (st : Store) : Prop :=
  ∀ cid c, classesCol st !! cid = Some c → NoDup (Class.students c).

(** Document ids are never the empty string. *)
Definition classIdsNonEmpty (st : Store) : Prop :=
  classesCol st !! "" = None.

Definition consistent (st : Store) : Prop :=
  agree st ∧ classIdsNonEmpty st.

(** The student-path operations, with [deleteClass]. *)
Inductive Op :=
  | AddStudent (newId : string) (newStudent : Student.t)
  | UpdateStudent (studentId : string) (updatedData : Student.t)
  | DeleteStudent (studentId : string)
  | DeleteClass (classId : string).

Definition exec (op : Op) (st : Store) : Store :=
  match op with
  | AddStudent newId newStudent => addStudent newId newStudent st
  | UpdateStudent studentId updatedData =>
      updateStudent studentId updatedData st
  | DeleteStudent studentId => deleteStudent studentId st
  | DeleteClass classId => deleteClass classId st
  end.

(** The id the store assigns to a new document is a non-empty string
    that the database has not seen: no student document has it and no
    class lists it. *)
Definition unusedId (st : Store) (newId : string) : Prop :=
  newId ≠ "" ∧ studentsCol st !! newId = None
  ∧ ∀ cid c, classesCol st !! cid = Some c → newId ∉ Class.students c.

(** The class document that [addStudent] and [deleteStudent] update for
    a student whose [classId] is [classId]: the class of that id, when
    the id is truthy and the class is in the collection. *)
Definition enrolsIn (st : Store) (classId : option string) (cid : string)
  : Prop :=
  truthyOpt classId = true ∧ classId = Some cid
  ∧ is_Some (classesCol st !! cid).

#[global] Instance enrolsIn_dec st classId cid :
  Decision (enrolsIn st classId cid).
Proof. unfold enrolsIn. apply _. Defined.

Definition admissible (st : Store) (op : Op) : Prop :=
  match op with
  | AddStudent newId _ => unusedId st newId
  | _ => True
  end.

(** [updateStudent] is applied to a student that is in the collection,
    as the edit form does. *)
Definition targetsPresent (st : Store) (op : Op) : Prop :=
  match op with
  | UpdateStudent studentId _ => is_Some (studentsCol st !! studentId)
  | _ => True
  end.

(** [runs ok st ops st']: executing [ops] from [st], each operation
    satisfying [ok] in the state it starts from, ends in [st']. *)
Inductive runs (ok : Store → Op → Prop) : Store → list Op → Store → Prop :=
  | runs_nil st : runs ok st [] st
  | runs_cons st op ops st' :
      ok st op → runs ok (exec op st) ops st' → runs ok st (op :: ops) st'.

(** ** Notions used to state the report properties *)

(** The double of a whole number: [binary64 z] is its IEEE
    representation, rounded to nearest even as the format prescribes (no
    rounding happens below 2^53). *)
Definition binary64 (z : Z) : spec_float :=
  binary_normalize prec emax z 0 false.

Definition whole (z : Z) : float := SF2Prim (binary64 z).

(** The mantissa of a positive integer below 2^53, shifted to 53 bits. *)
Definition mantissa (q : positive) : positive :=
  Z.to_pos (Z.pos q * 2 ^ (53 - Z.pos (digits2_pos q))).

Definition canonical (s : bool) (q : positive) : spec_float :=
  S754_finite s (mantissa q) (Z.pos (digits2_pos q) - 53).

(** The sum of a list of numbers, added from the left as [reduce] does. *)
Definition sumOf (amounts : list float) : float :=
  fold_left PrimFloat.add amounts 0%float.

Definition sumList (amounts : list Z) : Z := foldr Z.add 0 amounts.

(** The amounts are the whole numbers [zs], none of them negative. *)
Definition wholeAmounts (amounts : list float) (zs : list Z) : Prop :=
  Forall2 (fun x z => 0 ≤ z ∧ x = whole z) amounts zs.

(** What a bucket becomes when it receives [amount]: a missing bucket
    starts from 0, and so does one that holds [NaN] or a zero. *)
Definition addAmount (value : option Value) (amount : float)
  : option Value :=
  match value with
  | Some (Num x) =>
      Some (Num ((if is_nan x || is_zero x then 0 else x) + amount))
  | Some Text => Some Text
  | None => Some (Num (0 + amount))
  end.

(** The bucket that has received the [amounts] in turn. *)
Definition bucketOf (amounts : list float) : option Value :=
  fold_left addAmount amounts None.


(** The expense is counted in the bucket [key]. *)
Definition inBucket (key : string) (expense : string * Expense.t) : Prop :=
  categoryOf (snd expense) = key.

#[global] Instance inBucket_dec key expense : Decision (inBucket key expense).
Proof. unfold inBucket. apply _. Defined.

(** An accumulator whose properties are whole numbers, none negative,
    that add up to [total]. *)
Definition wholeAcc (acc : gmap string Value) (total : Z) : Prop :=
  ∃ m : gmap string Z,
    acc = (fun z => Num (whole z)) <$> m
    ∧ map_Forall (fun _ z => 0 ≤ z) m
    ∧ sumList (snd <$> map_to_list m) = total.

(** ** Notions used to state the export property *)

(** The student id is in the [students] list of a selected class. *)
Definition listed (selectedClassIds : list string)
  (classes : list (string * Class.t)) (sid : string) : Prop :=
  ∃ cid c,
    cid ∈ selectedClassIds
    ∧ findById (Some cid) classes = Some (cid, c)
    ∧ sid ∈ Class.students c.

(** [row] is the row of student [sid]: the student's name and phone, the
    e-mail (empty when there is none), the payment status in words, and
    the name of a selected class that lists the student. *)
Definition rowFor (selectedClassIds : list string)
  (classes : list (string * Class.t)) (students : list (string * Student.t))
  (sid : string) (row : Row) : Prop :=
  ∃ s cid c,
    findById (Some sid) students = Some (sid, s)
    ∧ cid ∈ selectedClassIds
    ∧ findById (Some cid) classes = Some (cid, c)
    ∧ sid ∈ Class.students c
    ∧ studentName row = Student.name s
    ∧ phoneNumber row = Student.phone s
    ∧ emailAddress row = default "" (Student.email s)
    ∧ paymentStatus row
      = (if Student.paid s then "مدفوع" else "غير مدفوع")
    ∧ className row = Class.name c.

(** The invariant of the export loop: the set holds each id once and
    the rows are the rows of its ids, in the same order. *)
Definition exportInv (R : string → Row → Prop) (acc : ExportState) : Prop :=
  NoDup acc.1 ∧ Forall2 R acc.1 acc.2.

(** ** Sample data *)

Definition emptyClass (name : string) : Class.t :=
  {| Class.name := name; Class.description := "";
     Class.students := []; Class.instructors := [] |}.

Definition studentIn (classId : option string) : Student.t :=
  {| Student.name := "Sara"; Student.phone := "0910000000";
     Student.email := None; Student.paid := false;
     Student.classId := classId; Student.studentType := "local" |}.

(** Two empty classes and no student; the clock ticks once a request. *)
Definition twoClasses : Store :=
  {| studentsCol := ∅;
     classesCol := <["C1" := emptyClass "A"]> (<["C2" := emptyClass "B"]> ∅);
     requests := [];
     studentStamps := ∅;
     classStamps := <["C1" := created (-2)]> (<["C2" := created (-1)]> ∅);
     clock := Z.of_nat |}.

(** Two students added to class [C1], one after the other. *)
Definition twoStudents : Store :=
  addStudent "S2" (studentIn (Some "C1"))
    (addStudent "S1" (studentIn (Some "C1")) twoClasses).

(** A student is added to class [C1], moved to [C2], then [C2] is
    deleted. *)
Definition sampleOps : list Op :=
  [AddStudent "S1" (studentIn (Some "C1"));
   UpdateStudent "S1" (studentIn (Some "C2"));
   DeleteClass "C2"].

(** [updateStudent] called twice for an id that no student document has. *)
Definition ghostOps : list Op :=
  [UpdateStudent "ghost" (studentIn (Some "C1"));
   UpdateStudent "ghost" (studentIn (Some "C1"))].

(** The calendar day of a date as [toISOString] prints it, for the years
    0000 to 9999: [t] is in milliseconds since the epoch and the day is
    the UTC day. *)
Definition twoDigits (n : Z) : string :=
  if bool_decide (n < 10) then "0" +:+ pretty n else pretty n.

Definition fourDigits (n : Z) : string :=
  if bool_decide (n < 10) then "000" +:+ pretty n
  else if bool_decide (n < 100) then "00" +:+ pretty n
  else if bool_decide (n < 1000) then "0" +:+ pretty n
  else pretty n.

Definition isoDate (t : Z) : string :=
  let z := t `div` 86400000 + 719468 in
  let era := z `div` 146097 in
  let doe := z `mod` 146097 in
  let yoe :=
    (doe - doe `div` 1460 + doe `div` 36524 - doe `div` 146096) `div` 365 in
  let doy := doe - (365 * yoe + yoe `div` 4 - yoe `div` 100) in
  let mp := (5 * doy + 2) `div` 153 in
  let d := doy - (153 * mp + 2) `div` 5 + 1 in
  let m := if bool_decide (mp < 10) then mp + 3 else mp - 9 in
  let y := yoe + era * 400 + (if bool_decide (m ≤ 2) then 1 else 0) in
  fourDigits y +:+ "-" +:+ twoDigits m +:+ "-" +:+ twoDigits d.

Definition attended (status : string) (date : Z) : Attendance.record :=
  {| Attendance.studentId := "S1"; Attendance.classId := "C1";
     Attendance.instructorId := "I1"; Attendance.date := date;
     Attendance.status := status |}.

Definition payment (courseId : option string) (amount : float) : Payment.t :=
  {| Payment.studentId := "S1"; Payment.courseId := courseId;
     Payment.amount := amount; Payment.discount := 0;
     Payment.status := "paid"; Payment.notes := "" |}.

Definition expense (category : option string) (amount : float) : Expense.t :=
  {| Expense.description := "rent"; Expense.amount := amount;
     Expense.category := category |}.

Definition somePayments : list (string * Payment.t) :=
  [("P1", payment (Some "K1") 250); ("P2", payment (Some "K2") 100);
   ("P3", payment (Some "K1") 50)].

Definition someExpenses : list (string * Expense.t) :=
  [("E1", expense (Some "general") 150); ("E2", expense None 40);
   ("E3", expense (Some "general") 10)].

Definition someCourses : list (string * Course.t) :=
  [("K1", {| Course.name := "English"; Course.price := 300;
             Course.description := "" |});
   ("K2", {| Course.name := "Math"; Course.price := 200;
             Course.description := "" |})].


(** Expenses of 0.3 and 0.2 for rent and 0.1 for water. *)
Definition centExpenses : list (string * Expense.t) :=
  [("E1", expense (Some "rent") 0.3); ("E2", expense (Some "water") 0.1);
   ("E3", expense (Some "rent") 0.2)].

(** Payments of 0.1, 0.2 and 0.3 without a course. *)
Definition tenthPayments : list (string * Payment.t) :=
  [("P1", payment None 0.1); ("P2", payment None 0.2);
   ("P3", payment None 0.3)].

(** Payments of 2^53, 1 and 1 without a course. *)
Definition largePayments : list (string * Payment.t) :=
  [("P1", payment None 9007199254740992); ("P2", payment None 1);
   ("P3", payment None 1)].


(** One student listed by both classes. *)
Definition sharedClasses : list (string * Class.t) :=
  [("C1", {| Class.name := "A"; Class.description := "";
             Class.students := ["S1"]; Class.instructors := [] |});
   ("C2", {| Class.name := "B"; Class.description := "";
             Class.students := ["S1"]; Class.instructors := [] |})].

Definition sharedStudents : list (string * Student.t) :=
  [("S1", studentIn (Some "C1"))].

(** ** The remaining class operations ([AppContent]) *)



(** [handleSubmit] of [AssignInstructorsToClassModal]:
    [updateClass(cls.id, { instructors: selectedInstructorIds })]. *)
Definition assignInstructorsToClass (classId : string)
  (selectedInstructorIds : list string) (st : Store) : Store :=
  updateClass classId
    {| Class.newName := None; Class.newDescription := None;
       Class.newStudents := None;
       Class.newInstructors := Some selectedInstructorIds |} st.

(** [handleCheckboxChange] of the two assignment modals: the new value of
    the selection after the box of [id] is clicked. *)
Definition handleCheckboxChange (id : string) (prevSelected : list string)
  : list string :=
  if bool_decide (id ∈ prevSelected)
  then filter (fun x => x ≠ id) prevSelected
  else prevSelected ++ [id].

(** ** The remaining parts of [ReportsPage] *)

(** The new value of [selectedClassIds] after the box of class [value]
    changed to [checked]. *)
Definition handleClassSelectionChange (value : string) (checked : bool)
  (prev : list string) : list string :=
  if checked then prev ++ [value] else filter (fun id => id ≠ value) prev.

Definition paidStudentsCount (students : list (string * Student.t)) : Z :=
  Z.of_nat (length (filter (fun s => Student.paid (snd s) = true) students)).

Definition unpaidStudentsCount (students : list (string * Student.t)) : Z :=
  Z.of_nat (length students) - paidStudentsCount students.

(** [{ name: cls.name, students: cls.students.length }] for each class. *)
Definition classEnrollmentData (classes : list (string * Class.t))
  : list (string * Z) :=
  map (fun cls =>
         (Class.name (snd cls), Z.of_nat (length (Class.students (snd cls)))))
    classes.

(** ** CSV export ([exportToCsv]) *)

(** The characters the export looks at.  Texts are sequences of UTF-8
    bytes; the three characters are ASCII, so they occur in the bytes
    exactly where they occur in the text. *)
Definition quoteChar : Ascii.ascii :=
  Ascii.Ascii false true false false false true false false.
Definition commaChar : Ascii.ascii := ","%char.
Definition newlineChar : Ascii.ascii := "010"%char.

(** The global [replace] of [exportToCsv]: every double quote of the
    value is written twice. *)
Fixpoint doubleQuotes (s : string) : string :=
  match s with
  | EmptyString => EmptyString
  | String c rest =>
      if bool_decide (c = quoteChar)
      then String quoteChar (String quoteChar (doubleQuotes rest))
      else String c (doubleQuotes rest)
  end.

(** [s.includes(c)] for a one-character [c]. *)
Fixpoint includesChar (c : Ascii.ascii) (s : string) : bool :=
  match s with
  | EmptyString => false
  | String c' rest => bool_decide (c' = c) || includesChar c rest
  end.

(** The text of one value of a row. *)
Definition csvField (value : string) : string :=
  let processedValue := doubleQuotes value in
  if includesChar commaChar processedValue
     || includesChar newlineChar processedValue
  then String quoteChar (processedValue +:+ String quoteChar EmptyString)
  else processedValue.

(** [parts.join(sep)] *)
Fixpoint join (sep : string) (parts : list string) : string :=
  match parts with
  | [] => EmptyString
  | [x] => x
  | x :: rest => x +:+ sep +:+ join sep rest
  end.

(** A row is an object with text values: its entries in key order. *)
Definition csvLine (row : list (string * string)) : string :=
  join "," (map (fun entry => csvField (snd entry)) row).

Definition csvText (rows : list (list (string * string))) : string :=
  join (String newlineChar EmptyString)
    (join "," (map fst (default [] (head rows))) :: map csvLine rows).

(** What [exportToCsv] does; [downloadSupported] is
    [link.download !== undefined]. *)
Inductive CsvOutcome :=
  | NoData
  | Download (filename csv : string)
  | DownloadUnsupported.

Definition exportToCsv (downloadSupported : bool) (filename : string)
  (rows : list (list (string * string))) : CsvOutcome :=
  if bool_decide (length rows = 0%nat) then NoData
  else if downloadSupported then Download filename (csvText rows)
  else DownloadUnsupported.

(** The number of occurrences of a character in a text. *)
Fixpoint countChar (c : Ascii.ascii) (s : string) : nat :=
  match s with
  | EmptyString => 0
  | String c' rest =>
      ((if bool_decide (c' = c) then 1 else 0) + countChar c rest)%nat
  end.

(** ** The attendance page ([AttendancePage]) *)

(** The roster: [students.filter(s => currentClass.students.includes(s.id))]
    for the selected class, and nothing when no class is selected or the
    class is not found. *)
Definition classRoster (selectedClassId : string)
  (classes : list (string * Class.t)) (students : list (string * Student.t))
  : list (string * Student.t) :=
  if truthy selectedClassId then
    match findById (Some selectedClassId) classes with
    | Some (_, currentClass) =>
        filter (fun s => fst s ∈ Class.students currentClass) students
    | None => []
    end
  else [].

Section AttendanceBatch.
Variable isoDay : Z → string.
(** [new Date(selectedDate)] for the text of the date input. *)
Variable parseDate : string → Z.

(** [attendanceRecordsToSave]: one record for each key of
    [attendanceStatuses]. *)
Definition attendanceRecordsToSave (selectedClassId selectedInstructorId
  selectedDate : string) (attendanceStatuses : gmap string string)
  : list Attendance.record :=
  map (fun entry =>
         {| Attendance.studentId := fst entry;
            Attendance.classId := selectedClassId;
            Attendance.instructorId := selectedInstructorId;
            Attendance.date := parseDate selectedDate;
            Attendance.status := snd entry |})
    (map_to_list attendanceStatuses).

(** The writes of [Promise.all(records.map(addAttendance))], in the order
    in which the store applies them; every write comes with its own two
    clock readings. *)
Definition saveAll (writes : list (Z * Z * Attendance.record))
  (attendance : gmap string (gmap string Attendance.value))
  : gmap string (gmap string Attendance.value) :=
  fold_left (fun acc w => addAttendance isoDay w.1.1 w.1.2 w.2 acc)
    writes attendance.

(** What [handleSubmitAttendance] does with the form. *)
Inductive SubmitOutcome :=
  | SelectionMissing
  | NothingRecorded
  | Save (records : list Attendance.record).

Definition handleSubmitAttendance (selectedClassId selectedInstructorId
  selectedDate : string) (attendanceStatuses : gmap string string)
  : SubmitOutcome :=
  if negb (truthy selectedClassId) || negb (truthy selectedInstructorId)
     || negb (truthy selectedDate)
  then SelectionMissing
  else if bool_decide (size attendanceStatuses = 0%nat) then NothingRecorded
  else Save (attendanceRecordsToSave selectedClassId selectedInstructorId
               selectedDate attendanceStatuses).
End AttendanceBatch.

(** A text without the separator of the attendance document ids. *)
Fixpoint hyphenFree (s : string) : bool :=
  match s with
  | EmptyString => true
  | String c rest => negb (bool_decide (c = "-"%char)) && hyphenFree rest
  end.

(** Every id listed by a class is the id of a student document. *)
Definition listsPresent (st : Store) : Prop :=
  ∀ cid c sid,
    classesCol st !! cid = Some c → sid ∈ Class.students c →
    is_Some (studentsCol st !! sid).

(** A stand-in for [new Date(text)] on the text of a date input,
    [YYYY-MM-DD]: midnight (UTC) of that day, in milliseconds since the
    epoch; other texts give 0. *)
Definition digitValue (c : Ascii.ascii) : Z := Z.of_nat (nat_of_ascii c) - 48.

Definition parseDay (text : string) : Z :=
  match text with
  | String y1 (String y2 (String y3 (String y4 (String _
      (String m1 (String m2 (String _ (String d1 (String d2
         EmptyString))))))))) =>
      let y :=
        1000 * digitValue y1 + 100 * digitValue y2 + 10 * digitValue y3
        + digitValue y4 in
      let m := 10 * digitValue m1 + digitValue m2 in
      let d := 10 * digitValue d1 + digitValue d2 in
      let y' := if bool_decide (m ≤ 2) then y - 1 else y in
      let era := y' `div` 400 in
      let yoe := y' - era * 400 in
      let mp := if bool_decide (2 < m) then m - 3 else m + 9 in
      let doy := (153 * mp + 2) `div` 5 + d - 1 in
      let doe := yoe * 365 + yoe `div` 4 - yoe `div` 100 + doy in
      (era * 146097 + doe - 719468) * 86400000
  | _ => 0
  end.

(** The statuses recorded for two students. *)
Definition someStatuses : gmap string string :=
  <["S1" := "present"]> (<["S2" := "late"]> ∅).

(** The object pushed to [dataToExport] for a row: its five entries in
    the order of the literal (student name, phone number, e-mail,
    payment status, class). *)
Definition rowEntries (row : Row) : list (string * string) :=
  [("اسم الطالب", studentName row); ("رقم الهاتف", phoneNumber row);
   ("البريد الإلكتروني", emailAddress row);
   ("حالة الدفع", paymentStatus row); ("الفصل", className row)].

(** ** Basic facts about the store adapter *)

Section Adapter.
Context {A : Type}.
Implicit Types (col : gmap string A) (id k : string).

Lemma findById_snapshot col id :
  findById (Some id) (snapshot col) = (fun d => (id, d)) <$> col !! id.
Proof.
  unfold findById, snapshot.
  destruct (find _ _) as [[k d]|] eqn:Hf.
  - apply find_some in Hf as [Hin Hk].
    apply bool_decide_eq_true in Hk. simpl in Hk.
    injection Hk as ->.
    apply list_elem_of_In, elem_of_map_to_list in Hin.
    by rewrite Hin.
  - destruct (col !! id) as [d|] eqn:Hl; [|done].
    apply elem_of_map_to_list, list_elem_of_In in Hl.
    eapply find_none in Hf; [|exact Hl].
    apply bool_decide_eq_false in Hf. by destruct Hf.
Qed.

Lemma findById_null col : findById None (snapshot col) = None.
Proof.
  unfold findById. destruct (find _ _) as [x|] eqn:Hf; [|done].
  apply find_some in Hf as [_ Hk].
  by apply bool_decide_eq_true in Hk.
Qed.

Lemma lookup_updateIn col id f k :
  updateIn id f col !! k
  = if decide (id = k) then f <$> col !! k else col !! k.
Proof.
  unfold updateIn. case_decide as Hk.
  - subst k. destruct (col !! id) eqn:Hl.
    + by rewrite lookup_insert_eq.
    + by rewrite Hl.
  - destruct (col !! id); [|done]. by rewrite lookup_insert_ne.
Qed.


Lemma updateIn_ext col id f g :
  (∀ x, f x = g x) → updateIn id f col = updateIn id g col.
Proof.
  intros Hfg. unfold updateIn. destruct (col !! id); [|done].
  by rewrite Hfg.
Qed.

Lemma lookup_stampIn col id f (stamps : gmap string Stamps) k :
  stampIn id f col stamps !! k
  = if decide (id = k ∧ is_Some (col !! k))
    then Some (f (default noStamps (stamps !! k)))
    else stamps !! k.
Proof.
  unfold stampIn. destruct (decide (id = k)) as [->|Hk].
  - destruct (col !! k) eqn:Hl.
    + rewrite lookup_insert_eq. by rewrite decide_True.
    + rewrite decide_False; [done|]. by intros [_ [? ?]].
  - rewrite decide_False by naive_solver.
    destruct (col !! id); [|done]. by rewrite lookup_insert_ne.
Qed.
End Adapter.

Lemma apply_entire b d s : Student.apply (Student.entire b d) s = d.
Proof. by destruct d. Qed.

(** Both callers of [updateStudentDoc] hand it all six fields, so the
    merge leaves the six fields of the object. *)
Lemma updateStudentDoc_students id b d st :
  studentsCol (updateStudentDoc id (Student.entire b d) st)
  = updateIn id (fun _ => d) (studentsCol st).
Proof. apply updateIn_ext. intros s. apply apply_entire. Qed.

(** Case split on every [decide] of the goal, then use the equations. *)
Ltac split_cases :=
  repeat case_decide; destruct_and?; simplify_eq; try naive_solver.

Lemma truthyOpt_Some o : truthyOpt o = true → ∃ c, o = Some c ∧ c ≠ "".
Proof.
  destruct o as [c|]; [|done]. simpl. unfold truthy.
  intros H%bool_decide_eq_true. eauto.
Qed.

Lemma addStudent_students newId s st :
  studentsCol (addStudent newId s st) = <[newId := s]> (studentsCol st).
Proof.
  unfold addStudent. simpl.
  destruct (truthy newId && truthyOpt (Student.classId s)); [|done].
  destruct (findById _ _) as [[cid c]|]; done.
Qed.

Lemma addStudent_classes newId s st cid :
  classesCol (addStudent newId s st) !! cid
  = if decide (newId ≠ "" ∧ truthyOpt (Student.classId s) = true
               ∧ Student.classId s = Some cid)
    then withStudents (fun l => l ++ [newId]) <$> classesCol st !! cid
    else classesCol st !! cid.
Proof.
  unfold addStudent. simpl.
  destruct (truthy newId) eqn:Hn; simpl.
  2: { apply bool_decide_eq_false in Hn.
       case_decide as H; [|done]. by destruct H as [? _]. }
  apply bool_decide_eq_true in Hn.
  destruct (truthyOpt (Student.classId s)) eqn:Ht.
  2: { case_decide as H; [|done]. by destruct H as (_ & ? & _). }
  apply truthyOpt_Some in Ht as (c0 & Hc0 & Hne). rewrite Hc0.
  rewrite findById_snapshot.
  destruct (classesCol st !! c0) as [c|] eqn:Hl; simpl.
  - rewrite lookup_updateIn. case_decide as Hk.
    + subst cid. rewrite Hl. simpl. by rewrite decide_True.
    + rewrite decide_False; [done|]. intros (_ & _ & [= ->]). done.
  - case_decide as H; [|done]. destruct H as (_ & _ & [= ->]).
    by rewrite Hl.
Qed.

Lemma classIdOf_find st sid :
  match findById (Some sid) (snapshot (studentsCol st)) with
  | Some (_, s) => Student.classId s
  | None => None
  end = classIdOf st sid.
Proof.
  rewrite findById_snapshot. unfold classIdOf.
  by destruct (studentsCol st !! sid).
Qed.

Lemma updateStudent_students sid d st :
  studentsCol (updateStudent sid d st)
  = updateIn sid (fun _ => d) (studentsCol st).
Proof.
  unfold updateStudent. rewrite classIdOf_find.
  rewrite <- (updateStudentDoc_students sid false d st).
  case_bool_decide; [|done].
  destruct (truthyOpt (classIdOf st sid));
    destruct (truthyOpt (Student.classId d));
    repeat (destruct (findById _ _) as [[? ?]|]); done.
Qed.

Lemma updateStudent_classes sid d st cid :
  classesCol (updateStudent sid d st) !! cid
  = let old := classIdOf st sid in
    let new := Student.classId d in
    if decide (old = new) then classesCol st !! cid
    else if decide (truthyOpt new = true ∧ new = Some cid)
    then withStudents (fun l => l ++ [sid]) <$> classesCol st !! cid
    else if decide (truthyOpt old = true ∧ old = Some cid)
    then withStudents (filter (fun id => id ≠ sid)) <$> classesCol st !! cid
    else classesCol st !! cid.
Proof.
  unfold updateStudent. rewrite classIdOf_find. simpl.
  set (old := classIdOf st sid). set (new := Student.classId d).
  case_bool_decide as Hon.
  2: { rewrite decide_True; [done|]. by destruct (decide (old = new)). }
  rewrite (decide_False (P := old = new)) by done.
  destruct (truthyOpt new) eqn:Hn.
  - apply truthyOpt_Some in Hn as (cn & Hcn & Hnn). rewrite Hcn in *.
    rewrite findById_snapshot.
    destruct (truthyOpt old) eqn:Ho.
    + apply truthyOpt_Some in Ho as (co & Hco & Hno). rewrite Hco in *.
      rewrite findById_snapshot.
      assert (co ≠ cn) by congruence.
      destruct (classesCol st !! cn) as [c|] eqn:Hl; simpl;
        destruct (classesCol st !! co) as [c'|] eqn:Hl'; simpl;
        rewrite ?lookup_updateIn; simpl; rewrite ?lookup_updateIn;
        split_cases; rewrite ?Hl, ?Hl'; done.
    + destruct (classesCol st !! cn) as [c|] eqn:Hl; simpl;
        rewrite ?lookup_updateIn; split_cases; rewrite ?Hl; done.
  - rewrite (decide_False (P := false = true ∧ _)) by naive_solver.
    destruct (truthyOpt old) eqn:Ho.
    + apply truthyOpt_Some in Ho as (co & Hco & Hno). rewrite Hco in *.
      rewrite findById_snapshot.
      destruct (classesCol st !! co) as [c'|] eqn:Hl'; simpl;
        rewrite ?lookup_updateIn; split_cases; rewrite ?Hl'; done.
    + rewrite decide_False by naive_solver. done.
Qed.

Lemma deleteStudent_students sid st :
  studentsCol (deleteStudent sid st) = delete sid (studentsCol st).
Proof.
  unfold deleteStudent. rewrite classIdOf_find.
  destruct (truthyOpt _); [|done].
  destruct (findById _ _) as [[? ?]|]; done.
Qed.

Lemma deleteStudent_classes sid st cid :
  classesCol (deleteStudent sid st) !! cid
  = let old := classIdOf st sid in
    if decide (truthyOpt old = true ∧ old = Some cid)
    then withStudents (filter (fun id => id ≠ sid)) <$> classesCol st !! cid
    else classesCol st !! cid.
Proof.
  unfold deleteStudent. rewrite classIdOf_find. simpl.
  set (old := classIdOf st sid).
  destruct (truthyOpt old) eqn:Ho.
  - apply truthyOpt_Some in Ho as (co & Hco & Hno). rewrite Hco in *.
    rewrite findById_snapshot.
    destruct (classesCol st !! co) as [c'|] eqn:Hl'; simpl;
      rewrite ?lookup_updateIn; split_cases; rewrite ?Hl'; done.
  - rewrite decide_False by naive_solver. done.
Qed.

Lemma clearClassIds_classes l st :
  classesCol (clearClassIds l st) = classesCol st.
Proof.
  revert st. induction l as [|x l IH]; intros st; [done|].
  simpl. by rewrite IH.
Qed.

Lemma clearClassIds_requests l st :
  requests (clearClassIds l st)
  = requests st ++ map (fun x => UpdateDoc Students (fst x)) l.
Proof.
  revert st. induction l as [|x l IH]; intros st; simpl.
  - by rewrite app_nil_r.
  - rewrite IH. simpl. by rewrite <- app_assoc.
Qed.

Lemma clearClassIds_students l st k :
  NoDup l.*1 →
  (∀ x, x ∈ l → studentsCol st !! x.1 = Some x.2) →
  studentsCol (clearClassIds l st) !! k
  = if decide (k ∈ l.*1)
    then Student.withClassId None <$> studentsCol st !! k
    else studentsCol st !! k.
Proof.
  revert st. induction l as [|[k0 d0] l IH]; intros st Hnd Hin.
  { by rewrite decide_False by apply not_elem_of_nil. }
  rewrite fmap_cons in Hnd. apply NoDup_cons in Hnd as [Hk0 Hnd].
  pose proof (Hin (k0, d0) ltac:(left)) as H0.
  change (clearClassIds ((k0, d0) :: l) st)
    with (clearClassIds l
            (updateStudentDoc k0
               (Student.entire true (Student.withClassId None d0)) st)).
  rewrite IH; [|done|]; rewrite ?updateStudentDoc_students;
    cbn [fst snd] in *.
  - rewrite lookup_updateIn.
    destruct (decide (k = k0)) as [->|Hne].
    + rewrite (decide_False (P := k0 ∈ l.*1)) by done.
      rewrite !decide_True; [by rewrite H0|by left|done].
    + rewrite (decide_False (P := k0 = k)) by done.
      case_decide as H1.
      * rewrite decide_True; [done|by right].
      * rewrite decide_False; [done|].
        rewrite fmap_cons, elem_of_cons. naive_solver.
  - intros x Hx. rewrite lookup_updateIn.
    rewrite decide_False; [apply Hin; by right|].
    intros ->. apply Hk0. apply list_elem_of_fmap. eauto.
Qed.

Lemma deleteClass_classes cid st :
  classesCol (deleteClass cid st) = delete cid (classesCol st).
Proof.
  unfold deleteClass. simpl.
  by rewrite (clearClassIds_classes (studentsInClass cid _) st).
Qed.

Lemma deleteClass_students cid st k :
  studentsCol (deleteClass cid st) !! k
  = (fun s => if decide (Student.classId s = Some cid)
              then Student.withClassId None s else s)
    <$> studentsCol st !! k.
Proof.
  unfold deleteClass. simpl.
  assert (Hsub : ∀ x, x ∈ studentsInClass cid (snapshot (studentsCol st)) ↔
            Student.classId x.2 = Some cid ∧ studentsCol st !! x.1 = Some x.2).
  { intros [k' d']. unfold studentsInClass, snapshot.
    rewrite list_elem_of_filter, elem_of_map_to_list. done. }
  rewrite clearClassIds_students.
  - case_decide as Hk.
    + apply list_elem_of_fmap in Hk as ([k' d'] & -> & Hx).
      apply Hsub in Hx as [Hc Hl]. simpl in *. rewrite Hl. simpl.
      by rewrite decide_True.
    + destruct (studentsCol st !! k) as [d|] eqn:Hl; [|done]. simpl.
      case_decide as Hc; [|done]. destruct Hk.
      apply list_elem_of_fmap. exists (k, d). split; [done|].
      by apply Hsub.
  - unfold studentsInClass, snapshot.
    eapply NoDup_fmap_fst.
    + intros k' d1 d2 [_ H1]%list_elem_of_filter [_ H2]%list_elem_of_filter.
      apply elem_of_map_to_list in H1, H2. congruence.
    + apply NoDup_filter, NoDup_map_to_list.
  - intros x Hx. by apply Hsub in Hx as [_ ?].
Qed.

Lemma deleteClass_requests cid st :
  requests (deleteClass cid st)
  = requests st
    ++ map (fun x => UpdateDoc Students (fst x))
         (studentsInClass cid (snapshot (studentsCol st)))
    ++ [DeleteDoc Classes cid].
Proof.
  unfold deleteClass. simpl.
  by rewrite clearClassIds_requests, <- app_assoc.
Qed.

(** ** Preservation of the relation *)

Lemma students_withStudents f c :
  Class.students (withStudents f c) = f (Class.students c).
Proof. done. Qed.

Lemma classIdOf_Some st sid s :
  studentsCol st !! sid = Some s → classIdOf st sid = Student.classId s.
Proof. unfold classIdOf. by intros ->. Qed.

Lemma exec_classIdsNonEmpty op st :
  classIdsNonEmpty st → classIdsNonEmpty (exec op st).
Proof.
  unfold classIdsNonEmpty. intros H. destruct op; cbn [exec].
  - rewrite addStudent_classes, H. by case_decide.
  - rewrite updateStudent_classes, H. simpl. by repeat case_decide.
  - rewrite deleteStudent_classes, H. simpl. by case_decide.
  - rewrite deleteClass_classes.
    destruct (decide (classId = "")) as [->|Hne].
    + apply lookup_delete_eq.
    + by rewrite lookup_delete_ne.
Qed.

Lemma addStudent_agree newId d st :
  consistent st → unusedId st newId → agree (addStudent newId d st).
Proof.
  intros [Hag Hne] (Hid & Hfresh & Hlists) sid s cid c.
  rewrite addStudent_students, addStudent_classes.
  intros Hs Hc.
  destruct (classesCol st !! cid) as [c0|] eqn:Hc0;
    [|by case_decide]. simpl in Hc.
  assert (Hcid : cid ≠ "") by (intros ->; congruence).
  destruct (decide (sid = newId)) as [->|Hsid].
  - rewrite lookup_insert_eq in Hs. injection Hs as <-.
    case_decide as Hd; simplify_eq.
    + destruct Hd as (_ & _ & ->). rewrite students_withStudents.
      set_solver.
    + split.
      * intros Heq. destruct Hd. rewrite Heq. repeat split; try done.
        simpl. by apply bool_decide_eq_true.
      * intros Hin. by apply Hlists in Hc0.
  - rewrite lookup_insert_ne in Hs by done.
    rewrite (Hag sid s cid c0 Hs Hc0).
    case_decide; simplify_eq; [|done].
    rewrite students_withStudents. set_solver.
Qed.

(** A guard [truthy x ∧ x = Some cid] was not taken although it holds. *)
Ltac refute_guard Ht :=
  exfalso;
  match goal with
  | Hn : ¬ (_ ∧ _) |- _ => apply Hn; split; [by apply Ht|done]
  end.

Lemma updateStudent_agree studentId d st :
  consistent st → agree (updateStudent studentId d st).
Proof.
  intros [Hag Hne] sid s cid c.
  rewrite updateStudent_students, updateStudent_classes, lookup_updateIn.
  cbv zeta. intros Hs Hc.
  destruct (classesCol st !! cid) as [c0|] eqn:Hc0;
    [|by repeat case_decide]. simpl in Hc.
  assert (Hcid : cid ≠ "") by (intros ->; congruence).
  assert (Ht : ∀ o, o = Some cid → truthyOpt o = true).
  { intros o ->. simpl. by apply bool_decide_eq_true. }
  destruct (decide (studentId = sid)) as [->|Hsid].
  - destruct (studentsCol st !! sid) as [s0|] eqn:Hs0; [|done].
    simpl in Hs. injection Hs as <-.
    rewrite (classIdOf_Some _ _ _ Hs0) in Hc.
    pose proof (Hag sid s0 cid c0 Hs0 Hc0) as Hold.
    repeat case_decide; destruct_and?; simplify_eq;
      rewrite ?students_withStudents.
    + by rewrite <- H.
    + set_solver.
    + rewrite list_elem_of_filter. split; [|naive_solver].
      intros Hd. refute_guard Ht.
    + split; [intros Hd; refute_guard Ht|].
      intros Hin. apply Hold in Hin. refute_guard Ht.
  - pose proof (Hag sid s cid c0 Hs Hc0) as Hold.
    repeat case_decide; destruct_and?; simplify_eq;
      rewrite ?students_withStudents; try done.
    + set_solver.
    + rewrite list_elem_of_filter. naive_solver.
Qed.

Lemma deleteStudent_agree studentId st :
  consistent st → agree (deleteStudent studentId st).
Proof.
  intros [Hag Hne] sid s cid c.
  rewrite deleteStudent_students, deleteStudent_classes.
  cbv zeta. intros Hs Hc.
  destruct (decide (studentId = sid)) as [->|Hsid];
    [by rewrite lookup_delete_eq in Hs|].
  rewrite lookup_delete_ne in Hs by done.
  destruct (classesCol st !! cid) as [c0|] eqn:Hc0; [|by case_decide].
  pose proof (Hag sid s cid c0 Hs Hc0) as Hold. simpl in Hc.
  case_decide; simplify_eq; [|done].
  rewrite students_withStudents, list_elem_of_filter. naive_solver.
Qed.

Lemma deleteClass_agree classId st :
  consistent st → agree (deleteClass classId st).
Proof.
  intros [Hag Hne] sid s cid c.
  rewrite deleteClass_students, deleteClass_classes.
  intros Hs Hc.
  destruct (decide (classId = cid)) as [->|Hcid];
    [by rewrite lookup_delete_eq in Hc|].
  rewrite lookup_delete_ne in Hc by done.
  destruct (studentsCol st !! sid) as [s0|] eqn:Hs0; [|done].
  simpl in Hs. injection Hs as <-.
  pose proof (Hag sid s0 cid c Hs0 Hc) as Hold.
  case_decide as Hd; [|done]. simpl. rewrite <- Hold.
  split; [done|]. congruence.
Qed.

Lemma exec_consistent op st :
  consistent st → admissible st op → consistent (exec op st).
Proof.
  intros Hc Hok. split; [|apply exec_classIdsNonEmpty, Hc].
  destruct op; cbn [exec admissible] in *;
    auto using addStudent_agree, updateStudent_agree, deleteStudent_agree,
      deleteClass_agree.
Qed.

Lemma runs_consistent ok st ops st' :
  (∀ st op, ok st op → admissible st op) →
  consistent st → runs ok st ops st' → consistent st'.
Proof.
  intros Hok Hc Hr. induction Hr as [|st op ops st' Hop _ IH]; [done|].
  apply IH. apply exec_consistent; auto.
Qed.

(** ** Preservation of duplicate-freedom *)

Lemma exec_duplicateFree op st :
  consistent st → duplicateFree st →
  admissible st op → targetsPresent st op →
  duplicateFree (exec op st).
Proof.
  intros [Hag Hne] Hnd Hadm Hpres cid c.
  destruct op as [newId d|studentId d|studentId|classId]; cbn [exec].
  - destruct Hadm as (_ & _ & Hlists).
    rewrite addStudent_classes.
    destruct (classesCol st !! cid) as [c0|] eqn:Hc0; [|by case_decide].
    case_decide; intros Hc; simpl in Hc; simplify_eq; [|by eapply Hnd].
    rewrite students_withStudents. apply NoDup_app.
    split_and!; [by eapply Hnd| |apply NoDup_singleton].
    intros x Hx ->%list_elem_of_singleton. by eapply Hlists.
  - destruct Hpres as [s0 Hs0].
    rewrite updateStudent_classes. cbv zeta.
    rewrite (classIdOf_Some _ _ _ Hs0).
    destruct (classesCol st !! cid) as [c0|] eqn:Hc0;
      [|by repeat case_decide].
    pose proof (Hag studentId s0 cid c0 Hs0 Hc0) as Hold.
    repeat case_decide; intros Hc; simpl in Hc; destruct_and?;
      simplify_eq; rewrite ?students_withStudents; try by eapply Hnd.
    + apply NoDup_app.
      split_and!; [by eapply Hnd| |apply NoDup_singleton].
      intros x Hx ->%list_elem_of_singleton. apply Hold in Hx. congruence.
    + apply NoDup_filter. by eapply Hnd.
  - rewrite deleteStudent_classes. cbv zeta.
    destruct (classesCol st !! cid) as [c0|] eqn:Hc0; [|by case_decide].
    case_decide; intros Hc; simpl in Hc; simplify_eq; [|by eapply Hnd].
    rewrite students_withStudents. apply NoDup_filter. by eapply Hnd.
  - rewrite deleteClass_classes. intros Hc.
    apply lookup_delete_Some in Hc as [_ Hc]. by eapply Hnd.
Qed.


(** ** The relation between students and classes: main results *)

(** C1. Starting from a consistent store, after any sequence of
    [addStudent], [updateStudent], [deleteStudent] and [deleteClass]
    calls, a student document points at a class document exactly when the
    class lists the student: [s.classId == c.id] iff [c.students] contains
    [s.id], for every student [s] and class [c] in the collections. *)
Theorem student_class_agreement st ops st' :
  consistent st →
  runs admissible st ops st' →
  ∀ sid s cid c,
    studentsCol st' !! sid = Some s →
    classesCol st' !! cid = Some c →
    Student.classId s = Some cid ↔ sid ∈ Class.students c.
Proof.
  intros Hc Hr.
  by destruct (runs_consistent admissible st ops st' (fun _ _ H => H) Hc Hr).
Qed.

(** C10, as amended.  Starting from a consistent store whose class lists
    are duplicate-free, after any sequence of [addStudent],
    [updateStudent] and [deleteStudent] calls (and [deleteClass] calls) in
    which [updateStudent] is applied to students present in the
    collection, no class lists a student id twice. *)
Theorem class_lists_duplicate_free st ops st' :
  consistent st →
  duplicateFree st →
  runs (fun st op => admissible st op ∧ targetsPresent st op) st ops st' →
  ∀ cid c, classesCol st' !! cid = Some c → NoDup (Class.students c).
Proof.
  intros Hc Hnd Hr.
  induction Hr as [|st op ops st' [Hadm Hpres] _ IH]; [done|].
  apply IH.
  - by apply exec_consistent.
  - by apply exec_duplicateFree.
Qed.

(** C3. After [deleteClass(C)] no student document has [classId == C],
    class [C] is gone, the set of student ids is the same, and the
    requests that clear the students' [classId] are all sent before the
    request that deletes the class document. *)
Theorem deleteClass_effect classId st :
  (∀ sid s, studentsCol (deleteClass classId st) !! sid = Some s →
            Student.classId s ≠ Some classId)
  ∧ classesCol (deleteClass classId st) !! classId = None
  ∧ dom (studentsCol (deleteClass classId st)) = dom (studentsCol st)
  ∧ ∃ cleared,
      requests (deleteClass classId st)
      = requests st ++ map (UpdateDoc Students) cleared
        ++ [DeleteDoc Classes classId]
      ∧ ∀ sid, sid ∈ cleared ↔
          ∃ s, studentsCol st !! sid = Some s
               ∧ Student.classId s = Some classId.
Proof.
  split_and!.
  - intros sid s. rewrite deleteClass_students.
    destruct (studentsCol st !! sid) as [s0|]; [|done]. simpl.
    intros [= <-]. by case_decide.
  - rewrite deleteClass_classes. apply lookup_delete_eq.
  - apply set_eq. intros sid.
    by rewrite !elem_of_dom, deleteClass_students, fmap_is_Some.
  - exists (studentsInClass classId (snapshot (studentsCol st))).*1.
    split.
    + rewrite deleteClass_requests. do 2 f_equal.
      by rewrite <- list_fmap_compose.
    + intros sid. rewrite list_elem_of_fmap. unfold studentsInClass, snapshot.
      split.
      * intros ([k s] & -> & [Hc Hl]%list_elem_of_filter).
        apply elem_of_map_to_list in Hl. eauto.
      * intros (s & Hl & Hc). exists (sid, s). split; [done|].
        apply list_elem_of_filter. split; [done|].
        by apply elem_of_map_to_list.
Qed.

(** C5. The bulk assignment [updateClass(classId, {students: idSet})]
    replaces the [students] list of the class by exactly [idSet], keeps
    its other fields and the other classes, and leaves every student
    document as it was: a listed student whose [classId] is not
    [classId] still does not point at the class afterwards. *)
Theorem assignStudentsToClass_frame classId idSet st c :
  classesCol st !! classId = Some c →
  studentsCol (assignStudentsToClass classId idSet st) = studentsCol st
  ∧ classesCol (assignStudentsToClass classId idSet st) !! classId
    = Some {| Class.name := Class.name c;
              Class.description := Class.description c;
              Class.students := idSet;
              Class.instructors := Class.instructors c |}
  ∧ (∀ cid, cid ≠ classId →
       classesCol (assignStudentsToClass classId idSet st) !! cid
       = classesCol st !! cid)
  ∧ ∀ sid s,
      sid ∈ idSet →
      studentsCol st !! sid = Some s →
      Student.classId s ≠ Some classId →
      ∃ s', studentsCol (assignStudentsToClass classId idSet st) !! sid
            = Some s'
            ∧ Student.classId s' ≠ Some classId.
Proof.
  intros Hc. unfold assignStudentsToClass, updateClass. simpl.
  split_and!; [done| | |eauto].
  - rewrite lookup_updateIn, decide_True, Hc; done.
  - intros cid Hne. by rewrite lookup_updateIn, decide_False.
Qed.

(** *** Concrete runs *)

Lemma twoClasses_consistent : consistent twoClasses.
Proof.
  split; [|reflexivity].
  intros sid s cid c Hs. cbn [twoClasses studentsCol] in Hs.
  by rewrite lookup_empty in Hs.
Defined.

Lemma twoClasses_duplicateFree : duplicateFree twoClasses.
Proof.
  intros cid c Hc. cbn [twoClasses classesCol] in Hc.
  apply lookup_insert_Some in Hc as [[_ <-]|[_ Hc]]; [apply NoDup_nil_2|].
  apply lookup_insert_Some in Hc as [[_ <-]|[_ Hc]]; [apply NoDup_nil_2|].
  by rewrite lookup_empty in Hc.
Defined.

Lemma twoClasses_unused id : id ≠ "" → unusedId twoClasses id.
Proof.
  intros Hid. split_and!; [done|apply lookup_empty|].
  intros cid c Hc. cbn [twoClasses classesCol] in Hc.
  apply lookup_insert_Some in Hc as [[_ <-]|[_ Hc]]; [apply not_elem_of_nil|].
  apply lookup_insert_Some in Hc as [[_ <-]|[_ Hc]]; [apply not_elem_of_nil|].
  by rewrite lookup_empty in Hc.
Defined.

Lemma student_class_agreement_witness :
  agree (exec (DeleteClass "C2")
           (exec (UpdateStudent "S1" (studentIn (Some "C2")))
              (exec (AddStudent "S1" (studentIn (Some "C1"))) twoClasses))).
Proof.
  refine (student_class_agreement twoClasses sampleOps _ _ _).
  - apply twoClasses_consistent.
  - apply runs_cons; [by apply twoClasses_unused|].
    apply runs_cons; [exact I|].
    apply runs_cons; [exact I|].
    apply runs_nil.
Defined.

Lemma class_lists_duplicate_free_witness :
  duplicateFree
    (exec (UpdateStudent "S1" (studentIn (Some "C2")))
       (exec (AddStudent "S1" (studentIn (Some "C1"))) twoClasses)).
Proof.
  refine (class_lists_duplicate_free twoClasses
            [AddStudent "S1" (studentIn (Some "C1"));
             UpdateStudent "S1" (studentIn (Some "C2"))] _ _ _ _).
  - apply twoClasses_consistent.
  - apply twoClasses_duplicateFree.
  - apply runs_cons; [split; [by apply twoClasses_unused|exact I]|].
    apply runs_cons; [split; [exact I|]|apply runs_nil].
    exists (studentIn (Some "C1")). vm_compute. reflexivity.
Defined.

(** C10, as stated, fails: calling [updateStudent] twice for an id that
    no student document has appends the id twice to the new class. *)
Lemma ghost_update_duplicates :
  consistent twoClasses
  ∧ duplicateFree twoClasses
  ∧ runs admissible twoClasses ghostOps
      (updateStudent "ghost" (studentIn (Some "C1"))
         (updateStudent "ghost" (studentIn (Some "C1")) twoClasses))
  ∧ Class.students
      <$> classesCol
            (updateStudent "ghost" (studentIn (Some "C1"))
               (updateStudent "ghost" (studentIn (Some "C1")) twoClasses))
          !! "C1"
    = Some ["ghost"; "ghost"]
  ∧ ¬ duplicateFree
        (updateStudent "ghost" (studentIn (Some "C1"))
           (updateStudent "ghost" (studentIn (Some "C1")) twoClasses)).
Proof.
  split_and!.
  - apply twoClasses_consistent.
  - apply twoClasses_duplicateFree.
  - apply runs_cons; [exact I|]. apply runs_cons; [exact I|]. apply runs_nil.
  - vm_compute. reflexivity.
  - intros Hnd.
    specialize (Hnd "C1"
      (withStudents (fun _ => ["ghost"; "ghost"]) (emptyClass "A"))
      ltac:(vm_compute; reflexivity)).
    apply NoDup_cons in Hnd as [Hin _]. apply Hin. by left.
Qed.

Lemma assignStudentsToClass_frame_witness :
  studentsCol (assignStudentsToClass "C1" ["S1"; "S2"] twoClasses)
  = studentsCol twoClasses
  ∧ Class.students
      <$> classesCol (assignStudentsToClass "C1" ["S1"; "S2"] twoClasses)
          !! "C1"
    = Some ["S1"; "S2"].
Proof.
  destruct (assignStudentsToClass_frame "C1" ["S1"; "S2"] twoClasses
              (emptyClass "A") ltac:(reflexivity)) as (H1 & H2 & _).
  split; [exact H1|]. rewrite H2. reflexivity.
Defined.

(** ** Attendance upsert *)

Section AttendanceFacts.
Variable isoDay : Z → string.
Implicit Types (m : gmap string (gmap string Attendance.value)).
Implicit Types (r : Attendance.record) (d : gmap string Attendance.value).

Lemma lookup_addAttendance c u r m k :
  addAttendance isoDay c u r m !! k
  = if decide (k = attendanceDocId isoDay r)
    then Some (attendanceData c u r ∪ default ∅ (m !! k))
    else m !! k.
Proof.
  unfold addAttendance, setDocMerge. case_decide as Hk.
  - subst k. by rewrite lookup_insert_eq.
  - by rewrite lookup_insert_ne.
Qed.

Lemma attendanceData_sameSession c u r d :
  sameSession isoDay r (attendanceData c u r ∪ d).
Proof.
  unfold sameSession.
  split_and!; [by apply lookup_union_Some_l ..|].
  exists (Attendance.date r). split; [by apply lookup_union_Some_l|done].
Qed.

Lemma sameSession_docId r r' d :
  sameSession isoDay r d → sameSession isoDay r' d →
  attendanceDocId isoDay r = attendanceDocId isoDay r'.
Proof.
  intros (Hs & Hc & Hi & t & Ht & Hd) (Hs' & Hc' & Hi' & t' & Ht' & Hd').
  unfold attendanceDocId. simplify_eq. congruence.
Qed.

Lemma addAttendance_keyed c u r m :
  keyedBySession isoDay m → keyedBySession isoDay (addAttendance isoDay c u r m).
Proof.
  intros Hm k d. rewrite lookup_addAttendance. case_decide as Hk.
  - intros [= <-]. exists r. split; [apply attendanceData_sameSession|done].
  - apply Hm.
Qed.

(** C2. Submitting two attendance records for the same student, class,
    instructor and calendar day writes to one document id; the second
    submission adds no document, the document holds the status of the
    second submission, and it is the only document of the collection for
    that student, class, instructor and day. *)
Theorem attendance_resubmission m c1 u1 c2 u2 r1 r2 :
  keyedBySession isoDay m →
  Attendance.studentId r1 = Attendance.studentId r2 →
  Attendance.classId r1 = Attendance.classId r2 →
  Attendance.instructorId r1 = Attendance.instructorId r2 →
  isoDay (Attendance.date r1) = isoDay (Attendance.date r2) →
  attendanceDocId isoDay r1 = attendanceDocId isoDay r2
  ∧ dom (addAttendance isoDay c2 u2 r2 (addAttendance isoDay c1 u1 r1 m))
    = dom (addAttendance isoDay c1 u1 r1 m)
  ∧ (∃ d, addAttendance isoDay c2 u2 r2 (addAttendance isoDay c1 u1 r1 m)
          !! attendanceDocId isoDay r2 = Some d
          ∧ d !! "status" = Some (Attendance.VStr (Attendance.status r2)))
  ∧ ∀ k d,
      addAttendance isoDay c2 u2 r2 (addAttendance isoDay c1 u1 r1 m) !! k
      = Some d →
      (sameSession isoDay r2 d ↔ k = attendanceDocId isoDay r2).
Proof.
  intros Hm Hs Hc Hi Hd.
  assert (Hkey : attendanceDocId isoDay r1 = attendanceDocId isoDay r2).
  { unfold attendanceDocId. congruence. }
  split_and!; [done| | |].
  - unfold addAttendance at 1. unfold setDocMerge.
    rewrite dom_insert_L, <- Hkey.
    unfold addAttendance, setDocMerge. rewrite dom_insert_L. set_solver.
  - eexists. rewrite lookup_addAttendance, decide_True by done.
    split; [done|]. by apply lookup_union_Some_l.
  - intros k d Hl. split.
    + intros Hsame.
      destruct (addAttendance_keyed c2 u2 r2 _
                  (addAttendance_keyed c1 u1 r1 _ Hm) k d Hl)
        as (r' & Hsame' & ->).
      by apply (sameSession_docId r' r2 d).
    + intros ->. rewrite lookup_addAttendance, decide_True in Hl by done.
      injection Hl as <-. apply attendanceData_sameSession.
Qed.

(** Each call stamps [createdAt] again, whether or not the document
    exists. *)
Lemma addAttendance_createdAt c u r m :
  addAttendance isoDay c u r m !! attendanceDocId isoDay r
  ≫= (fun d => d !! "createdAt")
  = Some (Attendance.VTime c).
Proof.
  rewrite lookup_addAttendance, decide_True by done. simpl.
  by apply lookup_union_Some_l.
Qed.

(** The merge keeps the stored fields that the written object lacks. *)
Lemma addAttendance_other_fields c u r m d f :
  m !! attendanceDocId isoDay r = Some d →
  f ∉ ["studentId"; "classId"; "instructorId"; "date"; "status";
       "createdAt"; "updatedAt"] →
  addAttendance isoDay c u r m !! attendanceDocId isoDay r
  ≫= (fun d' => d' !! f)
  = d !! f.
Proof.
  intros Hd Hf. rewrite lookup_addAttendance, decide_True by done.
  rewrite Hd. simpl. apply lookup_union_r.
  unfold attendanceData, Attendance.spread. simpl.
  rewrite !lookup_insert_ne; [apply lookup_empty|..];
    intros <-; apply Hf; set_solver.
Qed.
End AttendanceFacts.

Lemma attendance_resubmission_witness :
  addAttendance isoDate 2000 2000 (attended "absent" 7200000)
    (addAttendance isoDate 1000 1000 (attended "present" 0) ∅)
  !! attendanceDocId isoDate (attended "absent" 7200000)
  ≫= (fun d => d !! "status")
  = Some (Attendance.VStr "absent").
Proof.
  destruct (attendance_resubmission isoDate ∅ 1000 1000 2000 2000
              (attended "present" 0) (attended "absent" 7200000))
    as (_ & _ & (d & Hd & Hstatus) & _);
    [|reflexivity..|].
  - intros k d Hk. by rewrite lookup_empty in Hk.
  - rewrite Hd. exact Hstatus.
Defined.

(** C4 on a concrete run: a record is submitted at time 1000 and again,
    for the same day, at time 2000.  After the second call the stored
    [createdAt] is 2000, not the 1000 of the creation; the stored [date]
    has changed as well. *)
Lemma resubmission_overwrites_createdAt :
  (addAttendance isoDate 1000 1000 (attended "present" 0) ∅
   !! "S1-C1-I1-1970-01-01" ≫= (fun d => d !! "createdAt")
   = Some (Attendance.VTime 1000))
  ∧ attendanceDocId isoDate (attended "absent" 7200000) = "S1-C1-I1-1970-01-01"
  ∧ (addAttendance isoDate 2000 2000 (attended "absent" 7200000)
       (addAttendance isoDate 1000 1000 (attended "present" 0) ∅)
     !! "S1-C1-I1-1970-01-01" ≫= (fun d => d !! "createdAt")
     = Some (Attendance.VTime 2000))
  ∧ (addAttendance isoDate 2000 2000 (attended "absent" 7200000)
       (addAttendance isoDate 1000 1000 (attended "present" 0) ∅)
     !! "S1-C1-I1-1970-01-01" ≫= (fun d => d !! "date")
     = Some (Attendance.VTime 7200000)).
Proof. split_and!; vm_compute; reflexivity. Qed.

(** ** Whole numbers as doubles *)

(** Facts about the IEEE operations on the doubles of whole numbers,
    from the specification of the primitive operations. *)

Lemma digits2_bounds p :
  2 ^ (Z.pos (digits2_pos p) - 1) ≤ Z.pos p < 2 ^ Z.pos (digits2_pos p).
Proof.
  induction p as [p IH|p IH|]; cbn [digits2_pos]; [| |done].
  - rewrite Pos2Z.inj_succ.
    replace (Z.succ (Z.pos (digits2_pos p)) - 1)
      with (Z.succ (Z.pos (digits2_pos p) - 1)) by lia.
    rewrite !Z.pow_succ_r by lia. lia.
  - rewrite Pos2Z.inj_succ.
    replace (Z.succ (Z.pos (digits2_pos p)) - 1)
      with (Z.succ (Z.pos (digits2_pos p) - 1)) by lia.
    rewrite !Z.pow_succ_r by lia. lia.
Qed.

Lemma digits2_log2 p : Z.pos (digits2_pos p) = Z.log2 (Z.pos p) + 1.
Proof.
  pose proof (digits2_bounds p) as [H1 H2].
  rewrite (Z.log2_unique (Z.pos p) (Z.pos (digits2_pos p) - 1)); [lia|lia|].
  split; [done|].
  by replace (Z.succ (Z.pos (digits2_pos p) - 1))
    with (Z.pos (digits2_pos p)) by lia.
Qed.

Lemma digits2_shift p q k :
  0 ≤ k → Z.pos p = Z.pos q * 2 ^ k →
  Z.pos (digits2_pos p) = Z.pos (digits2_pos q) + k.
Proof.
  intros Hk Hp. rewrite !digits2_log2, Hp.
  rewrite Z.log2_mul_pow2 by lia. lia.
Qed.

Lemma pos_iter_xO m d : Z.pos (Pos.iter xO m d) = Z.pos m * 2 ^ Z.pos d.
Proof.
  induction d as [|d IH] using Pos.peano_ind.
  - simpl. lia.
  - rewrite Pos.iter_succ, Pos2Z.inj_succ.
    change (Z.pos (Pos.iter xO m d)~0) with (2 * Z.pos (Pos.iter xO m d)).
    rewrite IH.
    rewrite Z.pow_succ_r by lia. lia.
Qed.

Lemma iter_pos_iter {A} (f : A → A) p x :
  @SpecFloat.iter_pos A f p x = Pos.iter f x p.
Proof.
  revert x. induction p as [p IH|p IH|]; intros x; simpl; [| |done].
  - by rewrite !IH, <- !Pos.iter_swap.
  - by rewrite !IH.
Qed.

Lemma shr_1_iter m n :
  Pos.iter shr_1
    {| shr_m := Z.pos (Pos.iter xO m n); shr_r := false; shr_s := false |} n
  = {| shr_m := Z.pos m; shr_r := false; shr_s := false |}.
Proof.
  revert m. induction n as [|n IH] using Pos.peano_ind; intros m; [done|].
  rewrite (Pos.iter_succ_r n _ xO), (Pos.iter_succ n _ shr_1), IH. done.
Qed.

Lemma mantissa_value q :
  Z.pos (digits2_pos q) ≤ 53 →
  Z.pos (mantissa q) = Z.pos q * 2 ^ (53 - Z.pos (digits2_pos q)).
Proof.
  intros Hd. unfold mantissa. rewrite Z2Pos.id; [done|].
  apply Z.mul_pos_pos; [done|]. apply Z.pow_pos_nonneg; lia.
Qed.

Lemma mantissa_digits q :
  Z.pos (digits2_pos q) ≤ 53 → Z.pos (digits2_pos (mantissa q)) = 53.
Proof.
  intros Hd.
  rewrite (digits2_shift _ q (53 - Z.pos (digits2_pos q))); [lia|lia|].
  by apply mantissa_value.
Qed.

Lemma fexp_digits d : -1021 ≤ d → fexp prec emax d = d - 53.
Proof. intros Hd. unfold fexp, SpecFloat.emin, prec, emax. lia. Qed.

Lemma shr_fexp_exact mz q ez :
  Z.pos (digits2_pos q) ≤ 53 →
  ez ≤ Z.pos (digits2_pos q) - 53 →
  Z.pos mz = Z.pos (mantissa q) * 2 ^ (Z.pos (digits2_pos q) - 53 - ez) →
  shr_fexp prec emax (Z.pos mz) ez loc_Exact
  = ({| shr_m := Z.pos (mantissa q); shr_r := false; shr_s := false |},
     Z.pos (digits2_pos q) - 53).
Proof.
  intros Hd He Hm. unfold shr_fexp, shr_record_of_loc. cbn [Zdigits2].
  rewrite (digits2_shift mz (mantissa q)
             (Z.pos (digits2_pos q) - 53 - ez) ltac:(lia) Hm).
  rewrite mantissa_digits by done.
  rewrite fexp_digits by lia.
  replace (53 + (Z.pos (digits2_pos q) - 53 - ez) + ez - 53 - ez)
    with (Z.pos (digits2_pos q) - 53 - ez) by lia.
  destruct (Z.pos (digits2_pos q) - 53 - ez) as [|t|t] eqn:Ht; [| |lia].
  - unfold shr. f_equal; [|lia]. f_equal. lia.
  - unfold shr. f_equal; [|lia]. rewrite iter_pos_iter.
    assert (mz = Pos.iter xO (mantissa q) t) as ->.
    { apply Pos2Z.inj. by rewrite pos_iter_xO. }
    apply shr_1_iter.
Qed.

Lemma binary_round_aux_exact s mz q ez :
  Z.pos (digits2_pos q) ≤ 53 →
  ez ≤ Z.pos (digits2_pos q) - 53 →
  Z.pos mz = Z.pos (mantissa q) * 2 ^ (Z.pos (digits2_pos q) - 53 - ez) →
  binary_round_aux prec emax s (Z.pos mz) ez loc_Exact = canonical s q.
Proof.
  intros Hd He Hm. unfold binary_round_aux.
  rewrite (shr_fexp_exact mz q ez) by done.
  cbn [shr_m loc_of_shr_record round_nearest_even].
  rewrite (shr_fexp_exact (mantissa q) q); [|done|lia|].
  - cbn [shr_m]. unfold canonical.
    replace (Z.pos (digits2_pos q) - 53 <=? emax - prec) with true; [done|].
    symmetry. apply Z.leb_le. unfold emax, prec. lia.
  - rewrite Z.sub_diag. simpl. lia.
Qed.

(** A mantissa [M] with [M * 2^-k = q] rounds to the canonical form of
    [q]. *)
Lemma binary_round_exact s M q k :
  0 ≤ k → Z.pos M = Z.pos q * 2 ^ k →
  Z.pos (digits2_pos q) ≤ 53 →
  binary_round prec emax s M (- k) = canonical s q.
Proof.
  intros Hk HM Hd. unfold binary_round.
  rewrite (digits2_shift M q k Hk HM).
  replace (Z.pos (digits2_pos q) + k + - k) with (Z.pos (digits2_pos q))
    by lia.
  rewrite fexp_digits by lia.
  pose proof (mantissa_value q Hd) as Hq.
  unfold shl_align.
  destruct (Z.pos (digits2_pos q) - 53 - - k) as [|t|t] eqn:Ht.
  - apply binary_round_aux_exact; [done|lia|].
    replace (Z.pos (digits2_pos q) - 53 - - k) with 0 by lia.
    rewrite Hq, HM. replace k with (53 - Z.pos (digits2_pos q)) by lia.
    simpl. lia.
  - apply binary_round_aux_exact; [done|lia|].
    rewrite Hq, HM, <- Z.mul_assoc, <- Z.pow_add_r by lia.
    do 2 f_equal. lia.
  - apply binary_round_aux_exact; [done|lia|].
    rewrite Z.sub_diag, pos_iter_xO, Hq, HM, <- !Z.mul_assoc.
    rewrite <- Z.pow_add_r by lia. rewrite Z.pow_0_r, Z.mul_1_r.
    do 2 f_equal. lia.
Qed.

Lemma binary64_pos q :
  Z.pos q < 2 ^ 53 → binary64 (Z.pos q) = canonical false q.
Proof.
  intros Hq. unfold binary64, binary_normalize.
  apply (binary_round_exact false q q 0); [done|simpl; lia|].
  pose proof (digits2_bounds q) as [Hlo _].
  destruct (decide (Z.pos (digits2_pos q) ≤ 53)) as [|Hn]; [done|].
  assert (2 ^ 53 ≤ 2 ^ (Z.pos (digits2_pos q) - 1))
    by (apply Z.pow_le_mono_r; lia).
  lia.
Qed.

Lemma digits2_le q : Z.pos q < 2 ^ 53 → Z.pos (digits2_pos q) ≤ 53.
Proof.
  intros Hq. pose proof (digits2_bounds q) as [Hlo _].
  destruct (decide (Z.pos (digits2_pos q) ≤ 53)) as [|Hn]; [done|].
  assert (2 ^ 53 ≤ 2 ^ (Z.pos (digits2_pos q) - 1))
    by (apply Z.pow_le_mono_r; lia).
  lia.
Qed.

Lemma binary64_neg q :
  Z.pos q < 2 ^ 53 → binary64 (Z.neg q) = canonical true q.
Proof.
  intros Hq. unfold binary64, binary_normalize.
  apply (binary_round_exact true q q 0); [done|simpl; lia|].
  by apply digits2_le.
Qed.

Lemma canonical_valid s q :
  Z.pos (digits2_pos q) ≤ 53 → valid_binary (canonical s q) = true.
Proof.
  intros Hd. unfold canonical. cbn [SpecFloat.valid_binary].
  unfold bounded, canonical_mantissa.
  rewrite mantissa_digits by done.
  rewrite fexp_digits by lia.
  apply andb_true_intro. split.
  - apply Z.eqb_eq. lia.
  - apply Z.leb_le. unfold emax, prec. lia.
Qed.

Lemma binary64_valid z :
  - 2 ^ 53 < z < 2 ^ 53 → valid_binary (binary64 z) = true.
Proof.
  intros Hz. destruct z as [|q|q]; [done| |].
  - rewrite binary64_pos by lia. apply canonical_valid, digits2_le. lia.
  - rewrite binary64_neg by lia. apply canonical_valid, digits2_le. lia.
Qed.

Lemma Prim2SF_whole z :
  - 2 ^ 53 < z < 2 ^ 53 → Prim2SF (whole z) = binary64 z.
Proof. intros Hz. by apply Prim2SF_SF2Prim, binary64_valid. Qed.

Lemma shl_align_value m e ez :
  ez ≤ e → Z.pos (fst (shl_align m e ez)) = Z.pos m * 2 ^ (e - ez).
Proof.
  intros He. unfold shl_align.
  destruct (ez - e) as [|t|t] eqn:Ht; [|lia|]; cbn [fst].
  - replace (e - ez) with 0 by lia. simpl. lia.
  - rewrite pos_iter_xO. do 2 f_equal. lia.
Qed.

Lemma aligned_value q ez :
  Z.pos (digits2_pos q) ≤ 53 →
  ez ≤ Z.pos (digits2_pos q) - 53 →
  Z.pos (fst (shl_align (mantissa q) (Z.pos (digits2_pos q) - 53) ez))
  = Z.pos q * 2 ^ (- ez).
Proof.
  intros Hd He. rewrite shl_align_value by done.
  rewrite mantissa_value, <- Z.mul_assoc, <- Z.pow_add_r by lia.
  do 2 f_equal. lia.
Qed.

(** Addition is exact on the non-negative integers below 2^53. *)
Lemma SF64add_whole a b :
  0 ≤ a → 0 ≤ b → a + b < 2 ^ 53 →
  SF64add (binary64 a) (binary64 b) = binary64 (a + b).
Proof.
  intros Ha Hb Hab. destruct a as [|p|p], b as [|q|q]; try lia.
  - done.
  - rewrite Z.add_0_l. by rewrite binary64_pos by lia.
  - rewrite Z.add_0_r. by rewrite binary64_pos by lia.
  - change (Z.pos p + Z.pos q) with (Z.pos (p + q)) in *.
    rewrite !binary64_pos by lia.
    pose proof (digits2_le p ltac:(lia)) as Hp.
    pose proof (digits2_le q ltac:(lia)) as Hq.
    unfold canonical at 1 2. unfold SF64add, SFadd. cbn [cond_Zopp].
    set (ez := Z.min _ _).
    rewrite !aligned_value by lia.
    assert (Hsum : Z.pos p * 2 ^ (- ez) + Z.pos q * 2 ^ (- ez)
                   = Z.pos (p + q) * 2 ^ (- ez)) by lia.
    rewrite Hsum.
    assert (0 < 2 ^ (- ez)) by (apply Z.pow_pos_nonneg; lia).
    destruct (Z.pos (p + q) * 2 ^ (- ez)) as [|M|M] eqn:HM; [lia| |lia].
    unfold binary_normalize.
    rewrite <- (Z.opp_involutive ez) at 1.
    apply (binary_round_exact false M (p + q) (- ez)); [lia|done|].
    apply digits2_le. lia.
Qed.

Lemma whole_add a b :
  0 ≤ a → 0 ≤ b → a + b < 2 ^ 53 →
  (whole a + whole b)%float = whole (a + b).
Proof.
  intros Ha Hb Hab. apply Prim2SF_inj.
  rewrite add_spec, !Prim2SF_whole by lia. by apply SF64add_whole.
Qed.

Lemma digits2_lt p q :
  Z.pos (digits2_pos p) < Z.pos (digits2_pos q) → Z.pos p < Z.pos q.
Proof.
  intros Hd. pose proof (digits2_bounds p) as [_ Hp].
  pose proof (digits2_bounds q) as [Hq _].
  assert (2 ^ Z.pos (digits2_pos p) ≤ 2 ^ (Z.pos (digits2_pos q) - 1))
    by (apply Z.pow_le_mono_r; lia).
  lia.
Qed.

(** The comparison of two non-negative integers below 2^53 is the
    comparison of the integers. *)
Lemma SFcompare_whole a b :
  0 ≤ a < 2 ^ 53 → 0 ≤ b < 2 ^ 53 →
  SFcompare (binary64 a) (binary64 b) = Some (a ?= b).
Proof.
  intros Ha Hb. destruct a as [|p|p], b as [|q|q]; try lia.
  - done.
  - by rewrite binary64_pos by lia.
  - by rewrite binary64_pos by lia.
  - rewrite !binary64_pos by lia.
    pose proof (digits2_le p ltac:(lia)) as Hp.
    pose proof (digits2_le q ltac:(lia)) as Hq.
    unfold canonical, SFcompare. f_equal.
    destruct (Z.compare_spec (Z.pos (digits2_pos p) - 53)
                (Z.pos (digits2_pos q) - 53)) as [He|He|He].
    + change (Pos.compare_cont Eq (mantissa p) (mantissa q))
        with (Z.pos (mantissa p) ?= Z.pos (mantissa q)).
      rewrite !mantissa_value by done.
      replace (Z.pos (digits2_pos q)) with (Z.pos (digits2_pos p)) by lia.
      assert (0 < 2 ^ (53 - Z.pos (digits2_pos p)))
        by (apply Z.pow_pos_nonneg; lia).
      destruct (Z.compare_spec
                  (Z.pos p * 2 ^ (53 - Z.pos (digits2_pos p)))
                  (Z.pos q * 2 ^ (53 - Z.pos (digits2_pos p)))),
        (Z.compare_spec (Z.pos p) (Z.pos q)); done || nia.
    + symmetry. apply Z.compare_lt_iff, digits2_lt. lia.
    + symmetry. apply Z.compare_gt_iff, digits2_lt. lia.
Qed.

Lemma whole_eqb a b :
  0 ≤ a < 2 ^ 53 → 0 ≤ b < 2 ^ 53 → (whole a =? whole b)%float = (a =? b).
Proof.
  intros Ha Hb. rewrite FloatAxioms.eqb_spec, !Prim2SF_whole by lia.
  unfold SFeqb. rewrite SFcompare_whole by done.
  destruct (Z.compare_spec a b), (Z.eqb_spec a b); done || lia.
Qed.


Lemma whole_ltb a b :
  0 ≤ a < 2 ^ 53 → 0 ≤ b < 2 ^ 53 → (whole a <? whole b)%float = (a <? b).
Proof.
  intros Ha Hb. rewrite FloatAxioms.ltb_spec, !Prim2SF_whole by lia.
  unfold SFltb. rewrite SFcompare_whole by done.
  destruct (Z.compare_spec a b), (Z.ltb_spec a b); done || lia.
Qed.


Example whole_examples :
  whole 0 = 0%float ∧ whole 250 = 250%float
  ∧ whole (2 ^ 53 - 1) = 9007199254740991%float.
Proof. vm_compute. done. Qed.

(** Subtraction is exact on the non-negative integers below 2^53. *)
Lemma SF64sub_whole a b :
  0 ≤ a < 2 ^ 53 → 0 ≤ b < 2 ^ 53 →
  SF64sub (binary64 a) (binary64 b) = binary64 (a - b).
Proof.
  intros Ha Hb. destruct a as [|p|p], b as [|q|q]; try lia.
  - done.
  - change (0 - Z.pos q) with (Z.neg q).
    by rewrite binary64_pos, binary64_neg by lia.
  - rewrite Z.sub_0_r. by rewrite binary64_pos by lia.
  - rewrite !binary64_pos by lia.
    pose proof (digits2_le p ltac:(lia)) as Hp.
    pose proof (digits2_le q ltac:(lia)) as Hq.
    unfold canonical at 1 2. unfold SF64sub, SFsub. cbn [cond_Zopp].
    set (ez := Z.min _ _).
    rewrite !aligned_value by lia.
    assert (Hdiff : Z.pos p * 2 ^ (- ez) - Z.pos q * 2 ^ (- ez)
                    = (Z.pos p - Z.pos q) * 2 ^ (- ez)) by lia.
    rewrite Hdiff.
    assert (0 < 2 ^ (- ez)) by (apply Z.pow_pos_nonneg; lia).
    destruct (Z.pos p - Z.pos q) as [|r|r] eqn:Hr.
    + done.
    + rewrite binary64_pos by lia.
      destruct (Z.pos r * 2 ^ (- ez)) as [|M|M] eqn:HM; [lia| |lia].
      unfold binary_normalize.
      rewrite <- (Z.opp_involutive ez) at 1.
      apply (binary_round_exact false M r (- ez)); [lia|done|].
      apply digits2_le. lia.
    + rewrite binary64_neg by lia.
      destruct (Z.neg r * 2 ^ (- ez)) as [|M|M] eqn:HM; [lia|lia|].
      unfold binary_normalize.
      rewrite <- (Z.opp_involutive ez) at 1.
      apply (binary_round_exact true M r (- ez)); [lia|lia|].
      apply digits2_le. lia.
Qed.

Lemma whole_sub a b :
  0 ≤ a < 2 ^ 53 → 0 ≤ b < 2 ^ 53 →
  (whole a - whole b)%float = whole (a - b).
Proof.
  intros Ha Hb. apply Prim2SF_inj.
  rewrite sub_spec, !Prim2SF_whole by lia. by apply SF64sub_whole.
Qed.

(** ** Reports *)

(** *** Whole numbers in the accumulator *)

Lemma whole_zero : whole 0 = 0%float.
Proof. reflexivity. Qed.

Lemma orZero_whole v : 0 ≤ v < 2 ^ 53 → orZero (whole v) = whole v.
Proof.
  intros Hv. unfold orZero, is_nan, is_zero.
  rewrite whole_eqb, Z.eqb_refl by done. cbn [negb orb].
  change zero with (whole 0). rewrite whole_eqb by lia.
  destruct (Z.eqb_spec v 0) as [->|]; done.
Qed.

Lemma sumList_nonneg zs : Forall (fun z => 0 ≤ z) zs → 0 ≤ sumList zs.
Proof. induction 1; simpl; lia. Qed.

Lemma sumList_Permutation zs zs' : zs ≡ₚ zs' → sumList zs = sumList zs'.
Proof. induction 1; simpl; lia. Qed.

Lemma wholeAmounts_nonneg amounts zs :
  wholeAmounts amounts zs → Forall (fun z => 0 ≤ z) zs.
Proof. induction 1 as [|x z l zs [Hz _] _ IH]; by constructor. Qed.

Lemma wholeAmounts_Permutation vs ws zs :
  vs ≡ₚ ws → wholeAmounts ws zs →
  ∃ zs', wholeAmounts vs zs' ∧ sumList zs' = sumList zs.
Proof.
  intros Hp. revert zs.
  induction Hp as [|x vs ws _ IH|x y vs|vs ws us _ IH1 _ IH2]; intros zs Hw.
  - inversion Hw; subst. exists []. by split; [constructor|].
  - inversion Hw as [|? z ? zs0 Hx Hw0]; subst.
    destruct (IH zs0 Hw0) as (zs' & Hw' & Hs).
    exists (z :: zs'). split; [by constructor|]. simpl. lia.
  - inversion Hw as [|? z1 ? zs1 Hy Hw1]; subst.
    inversion Hw1 as [|? z2 ? zs2 Hx Hw2]; subst.
    exists (z2 :: z1 :: zs2).
    split; [by constructor; [|constructor]|]. simpl. lia.
  - destruct (IH2 zs Hw) as (zs2 & Hw2 & Hs2).
    destruct (IH1 zs2 Hw2) as (zs1 & Hw1 & Hs1).
    exists zs1. split; [done|]. lia.
Qed.

(** Adding whole numbers from the left is exact while the total stays
    below 2^53. *)
Lemma fold_add_whole amounts zs total :
  wholeAmounts amounts zs → 0 ≤ total → total + sumList zs < 2 ^ 53 →
  fold_left PrimFloat.add amounts (whole total) = whole (total + sumList zs).
Proof.
  intros Hw. revert total.
  induction Hw as [|x z l zs [Hz ->] Hw IH]; intros total Ht Hlt; simpl.
  - by rewrite Z.add_0_r.
  - pose proof (sumList_nonneg _ (wholeAmounts_nonneg _ _ Hw)).
    simpl in Hlt. rewrite whole_add by lia.
    rewrite IH by lia. f_equal. lia.
Qed.

Lemma sumOf_whole amounts zs :
  wholeAmounts amounts zs → sumList zs < 2 ^ 53 →
  sumOf amounts = whole (sumList zs).
Proof.
  intros Hw Hlt. unfold sumOf. rewrite <- whole_zero.
  by rewrite (fold_add_whole amounts zs 0).
Qed.

Lemma proto_inherited : "__proto__" ∈ inheritedNames.
Proof. unfold inheritedNames. set_solver. Qed.

Lemma lookup_addTo key amount acc k :
  key ∉ inheritedNames →
  addTo key amount acc !! k
  = if decide (key = k) then addAmount (acc !! k) amount else acc !! k.
Proof.
  intros Hkey. unfold addTo.
  assert (key ≠ "__proto__") by (intros ->; apply Hkey, proto_inherited).
  rewrite (bool_decide_eq_false_2 (key = "__proto__")) by done.
  rewrite (bool_decide_eq_false_2 (key ∈ inheritedNames)) by done.
  destruct (decide (key = k)) as [->|Hk].
  - destruct (acc !! k) as [[x|]|]; by rewrite lookup_insert_eq.
  - destruct (acc !! key) as [[x|]|]; by rewrite lookup_insert_ne.
Qed.

Lemma addTo_wholeAcc key z acc total :
  key ∉ inheritedNames → 0 ≤ z → total + z < 2 ^ 53 →
  wholeAcc acc total → wholeAcc (addTo key (whole z) acc) (total + z).
Proof.
  intros Hkey Hz Hlt (m & -> & Hpos & Hsum).
  assert (Hne : key ≠ "__proto__") by (intros ->; apply Hkey, proto_inherited).
  assert (Htotal : 0 ≤ total).
  { rewrite <- Hsum. apply sumList_nonneg, Forall_fmap, Forall_forall.
    intros [k z'] Hin%elem_of_map_to_list. by apply (Hpos k z'). }
  exists (<[key := default 0 (m !! key) + z]> m).
  destruct (m !! key) as [v|] eqn:Hv.
  - assert (Hm : m = <[key := v]> (delete key m))
      by by rewrite insert_delete_eq, insert_id.
    assert (Hrest : Forall (fun z => 0 ≤ z)
                      (snd <$> map_to_list (delete key m))).
    { apply Forall_fmap, Forall_forall. intros [k z'] Hin%elem_of_map_to_list.
      apply lookup_delete_Some in Hin as [_ Hin]. by apply (Hpos k z'). }
    apply sumList_nonneg in Hrest.
    assert (Hv0 : 0 ≤ v) by by apply (Hpos key v).
    assert (Htot : total = v + sumList (snd <$> map_to_list (delete key m))).
    { rewrite <- Hsum. rewrite Hm at 1.
      rewrite (sumList_Permutation _ _
                 (fmap_Permutation snd _ _
                    (map_to_list_insert (delete key m) key v
                       (lookup_delete_eq m key)))).
      done. }
    split_and!.
    + unfold addTo. rewrite lookup_fmap, Hv. simpl.
      rewrite orZero_whole, whole_add by lia. by rewrite fmap_insert.
    + by apply map_Forall_insert_2; [simpl; lia|].
    + simpl. rewrite <- insert_delete_eq.
      rewrite (sumList_Permutation _ _
                 (fmap_Permutation snd _ _
                    (map_to_list_insert (delete key m) key (v + z)
                       (lookup_delete_eq m key)))).
      rewrite fmap_cons. simpl. lia.
  - split_and!.
    + unfold addTo. rewrite lookup_fmap, Hv. simpl.
      rewrite (bool_decide_eq_false_2 (key = "__proto__")) by done.
      rewrite (bool_decide_eq_false_2 (key ∈ inheritedNames)) by done.
      rewrite <- whole_zero, whole_add by lia. by rewrite fmap_insert.
    + by apply map_Forall_insert_2; [simpl; lia|].
    + simpl.
      rewrite (sumList_Permutation _ _
                 (fmap_Permutation snd _ _
                    (map_to_list_insert m key (0 + z) Hv))).
      rewrite fmap_cons. simpl. lia.
Qed.

Lemma wholeAcc_empty : wholeAcc ∅ 0.
Proof.
  exists ∅. split_and!.
  - by rewrite fmap_empty.
  - apply map_Forall_empty.
  - by rewrite map_to_list_empty.
Qed.

Lemma numbers_whole (l : list (string * Z)) :
  omap (fun entry : string * Value =>
          match snd entry with Num x => Some x | Text => None end)
    (prod_map id (fun z => Num (whole z)) <$> l)
  = (fun entry => whole (snd entry)) <$> l.
Proof. induction l as [|[k z] l IH]; [done|]. simpl. f_equal. apply IH. Qed.

(** The numbers of such an accumulator add up to its total in whatever
    order they are taken. *)
Lemma wholeAcc_numbers acc total vs :
  wholeAcc acc total → total < 2 ^ 53 →
  vs ≡ₚ numbers acc → sumOf vs = whole total.
Proof.
  intros (m & -> & Hpos & Hsum) Hlt Hvs.
  assert (Hw : wholeAmounts
                 ((fun entry => whole (snd entry)) <$> map_to_list m)
                 (snd <$> map_to_list m)).
  { unfold wholeAmounts. apply Forall2_fmap, Forall_Forall2_diag, Forall_forall.
    intros [k z] Hin%elem_of_map_to_list. split; [|done]. by apply (Hpos k z). }
  assert (Hp : vs ≡ₚ (fun entry => whole (snd entry)) <$> map_to_list m).
  { rewrite Hvs. unfold numbers. rewrite map_to_list_fmap.
    by rewrite numbers_whole. }
  destruct (wholeAmounts_Permutation _ _ _ Hp Hw) as (zs' & Hw' & Hs').
  rewrite (sumOf_whole vs zs') by (done || lia). f_equal. lia.
Qed.

(** *** Totals *)

Lemma totalRevenue_sumOf payments :
  totalRevenue payments
  = sumOf (map (fun p => Payment.amount (snd p)) payments).
Proof.
  unfold totalRevenue, sumOf. generalize 0%float.
  induction payments as [|p l IH]; intros sum; [done|]. simpl. apply IH.
Qed.

Lemma totalExpenses_sumOf expenses :
  totalExpenses expenses
  = sumOf (map (fun e => Expense.amount (snd e)) expenses).
Proof.
  unfold totalExpenses, sumOf. generalize 0%float.
  induction expenses as [|e l IH]; intros sum; [done|]. simpl. apply IH.
Qed.

(** C6. [netIncome] is [totalRevenue] minus [totalExpenses] as doubles,
    each total is the amounts added from the left starting from 0, and on
    empty lists the three values are 0.  When the amounts are whole
    numbers, none negative, and each total is below 2^53, no addition
    rounds: the totals are the sums of the amounts and [netIncome] is
    their difference. *)
Theorem netIncome_spec payments expenses :
  netIncome payments expenses
  = (totalRevenue payments - totalExpenses expenses)%float
  ∧ totalRevenue payments
    = sumOf (map (fun p => Payment.amount (snd p)) payments)
  ∧ totalExpenses expenses
    = sumOf (map (fun e => Expense.amount (snd e)) expenses)
  ∧ totalRevenue [] = 0%float ∧ totalExpenses [] = 0%float
  ∧ netIncome [] [] = 0%float
  ∧ ∀ ps es,
      wholeAmounts (map (fun p => Payment.amount (snd p)) payments) ps →
      wholeAmounts (map (fun e => Expense.amount (snd e)) expenses) es →
      sumList ps < 2 ^ 53 → sumList es < 2 ^ 53 →
      totalRevenue payments = whole (sumList ps)
      ∧ totalExpenses expenses = whole (sumList es)
      ∧ netIncome payments expenses = whole (sumList ps - sumList es).
Proof.
  split_and!; try done.
  - apply totalRevenue_sumOf.
  - apply totalExpenses_sumOf.
  - intros ps es Hps Hes Hp He.
    pose proof (sumList_nonneg _ (wholeAmounts_nonneg _ _ Hps)).
    pose proof (sumList_nonneg _ (wholeAmounts_nonneg _ _ Hes)).
    assert (Hr : totalRevenue payments = whole (sumList ps))
      by (rewrite totalRevenue_sumOf; by apply sumOf_whole).
    assert (Hx : totalExpenses expenses = whole (sumList es))
      by (rewrite totalExpenses_sumOf; by apply sumOf_whole).
    split_and!; [done..|].
    unfold netIncome. rewrite Hr, Hx. by apply whole_sub.
Qed.

(** *** Expenses by category *)

Lemma expenses_fold_lookup (expenses : list (string * Expense.t)) acc key :
  Forall (fun e => categoryOf (snd e) ∉ inheritedNames) expenses →
  fold_left
    (fun acc expense =>
       addTo (categoryOf (snd expense)) (Expense.amount (snd expense)) acc)
    expenses acc !! key
  = fold_left addAmount
      (map (fun e => Expense.amount (snd e)) (filter (inBucket key) expenses))
      (acc !! key).
Proof.
  intros Hok. revert acc.
  induction Hok as [|e l He _ IH]; intros acc; [done|].
  cbn [fold_left]. rewrite IH, lookup_addTo by done.
  destruct (decide (inBucket key e)) as [Hin|Hout].
  - rewrite (filter_cons_True _ _ _ Hin).
    by rewrite (decide_True (P := categoryOf e.2 = key)) by done.
  - rewrite (filter_cons_False _ _ _ Hout).
    by rewrite (decide_False (P := categoryOf e.2 = key)) by done.
Qed.

Lemma expenses_fold_whole (expenses : list (string * Expense.t)) zs acc
    total :
  Forall (fun e => categoryOf (snd e) ∉ inheritedNames) expenses →
  wholeAmounts (map (fun e => Expense.amount (snd e)) expenses) zs →
  total + sumList zs < 2 ^ 53 →
  wholeAcc acc total →
  wholeAcc
    (fold_left
       (fun acc expense =>
          addTo (categoryOf (snd expense)) (Expense.amount (snd expense)) acc)
       expenses acc)
    (total + sumList zs).
Proof.
  intros Hok. revert zs acc total.
  induction Hok as [|e l He _ IH]; intros zs acc total Hw Hlt Hacc.
  - inversion Hw; subst. simpl. by rewrite Z.add_0_r.
  - rewrite map_cons in Hw.
    inversion Hw as [|? z ? zs0 [Hz Hx] Hw0]; subst.
    pose proof (sumList_nonneg _ (wholeAmounts_nonneg _ _ Hw0)).
    simpl in Hlt. cbn [fold_left]. rewrite Hx.
    replace (total + sumList (z :: zs0)) with (total + z + sumList zs0)
      by (simpl; lia).
    apply IH; [done|lia|]. apply addTo_wholeAcc; [done|done|lia|done].
Qed.

(** C8. For expenses whose categories are not names that an object
    inherits, every expense is counted in one bucket, that of its
    category or, when the category is missing or empty, the uncategorized
    one: the bucket [key] has received, in order, the amounts of exactly
    the expenses of that category.  When moreover the amounts are whole
    numbers, none negative, with a total below 2^53, the values of
    [expensesByCategory], added in any order, give [totalExpenses]. *)
Theorem expensesByCategory_total (expenses : list (string * Expense.t)) :
  Forall (fun e => categoryOf (snd e) ∉ inheritedNames) expenses →
  (∀ key,
     expensesByCategory expenses !! key
     = bucketOf
         (map (fun e => Expense.amount (snd e))
            (filter (inBucket key) expenses)))
  ∧ (∀ e, Expense.category e = None ∨ Expense.category e = Some "" →
          categoryOf e = uncategorized)
  ∧ (∀ e key, Expense.category e = Some key → key ≠ "" →
              categoryOf e = key)
  ∧ ∀ zs,
      wholeAmounts (map (fun e => Expense.amount (snd e)) expenses) zs →
      sumList zs < 2 ^ 53 →
      totalExpenses expenses = whole (sumList zs)
      ∧ ∀ values,
          values ≡ₚ numbers (expensesByCategory expenses) →
          sumOf values = totalExpenses expenses.
Proof.
  intros Hok. unfold expensesByCategory. split_and!.
  - intros key. by rewrite expenses_fold_lookup, lookup_empty.
  - intros e [H|H]; unfold categoryOf; by rewrite H.
  - intros e key H Hne. unfold categoryOf. rewrite H. simpl.
    unfold truthy. by rewrite bool_decide_eq_true_2.
  - intros zs Hw Hlt.
    assert (Ht : totalExpenses expenses = whole (sumList zs))
      by (rewrite totalExpenses_sumOf; by apply sumOf_whole).
    split; [done|]. intros values Hv. rewrite Ht.
    eapply wholeAcc_numbers; [|done|exact Hv].
    rewrite <- (Z.add_0_l (sumList zs)).
    apply expenses_fold_whole; [done|done|lia|apply wholeAcc_empty].
Qed.

(** *** Revenue by course *)








(** ** Export of the students of the selected classes *)

Lemma findById_Some {A} id (arr : list (string * A)) k x :
  findById (Some id) arr = Some (k, x) → k = id.
Proof.
  unfold findById. intros [_ Hk]%find_some.
  apply bool_decide_eq_true in Hk. simpl in Hk. congruence.
Qed.

Lemma exportStudent_elem students selectedClass acc sid x :
  x ∈ (exportStudent students selectedClass acc sid).1 ↔
  x ∈ acc.1 ∨ (x = sid ∧ is_Some (findById (Some sid) students)).
Proof.
  destruct acc as [exported rows].
  unfold exportStudent. case_bool_decide as Hin; simpl.
  - naive_solver.
  - destruct (findById _ _) as [[k s]|] eqn:Hf; simpl.
    + rewrite elem_of_app, list_elem_of_singleton. naive_solver.
    + split; [auto|]. intros [?|[_ [? ?]]]; done.
Qed.

Lemma exportStudents_elem students selectedClass l acc x :
  x ∈ (fold_left (exportStudent students selectedClass) l acc).1 ↔
  x ∈ acc.1 ∨ (x ∈ l ∧ is_Some (findById (Some x) students)).
Proof.
  revert acc. induction l as [|sid l IH]; intros acc.
  - simpl. split; [auto|]. intros [?|[?%not_elem_of_nil _]]; done.
  - cbn [fold_left]. rewrite IH, exportStudent_elem, elem_of_cons.
    naive_solver.
Qed.
Section ExportLoop.
Variables (students : list (string * Student.t)).
Variable R : string → Row → Prop.

Lemma exportStudent_inv selectedClass acc sid :
  (∀ s, findById (Some sid) students = Some (sid, s) →
        R sid (rowOf s selectedClass)) →
  exportInv R acc → exportInv R (exportStudent students selectedClass acc sid).
Proof.
  intros HR [Hnd Hrows]. destruct acc as [exported rows].
  unfold exportStudent. case_bool_decide as Hin; [done|].
  destruct (findById _ _) as [[k s]|] eqn:Hf; [|done].
  pose proof (findById_Some _ _ _ _ Hf) as ->.
  split; simpl in *.
  - apply NoDup_app. split_and!; [done| |apply NoDup_singleton].
    by intros x Hx ->%list_elem_of_singleton.
  - apply Forall2_app; [done|]. constructor; [|constructor]. by apply HR.
Qed.

Lemma exportStudents_inv selectedClass l acc :
  (∀ sid s, sid ∈ l → findById (Some sid) students = Some (sid, s) →
            R sid (rowOf s selectedClass)) →
  exportInv R acc →
  exportInv R (fold_left (exportStudent students selectedClass) l acc).
Proof.
  revert acc. induction l as [|sid l IH]; intros acc HR Hinv; [done|].
  cbn [fold_left]. apply IH.
  - intros sid' s Hin. apply HR. by right.
  - apply exportStudent_inv; [|done]. intros s. apply HR. by left.
Qed.

End ExportLoop.

Section ExportClasses.
Variables (selectedClassIds : list string).
Variables (classes : list (string * Class.t)).
Variables (students : list (string * Student.t)).

Lemma exportClasses_inv l acc :
  l ⊆ selectedClassIds →
  exportInv (rowFor selectedClassIds classes students) acc →
  exportInv (rowFor selectedClassIds classes students)
    (fold_left (exportClass classes students) l acc).
Proof.
  revert acc. induction l as [|cid l IH]; intros acc Hsub Hinv; [done|].
  cbn [fold_left]. apply IH; [set_solver|].
  unfold exportClass.
  destruct (findById _ _) as [[k c]|] eqn:Hf; [|done].
  pose proof (findById_Some _ _ _ _ Hf) as ->.
  apply exportStudents_inv; [|done].
  intros sid s Hin Hs. exists s, cid, c. split_and!; try done.
  - apply Hsub. by left.
  - simpl. destruct (Student.email s) as [e|]; [|done]. simpl.
    unfold truthy. case_bool_decide as He; [done|].
    by destruct (decide (e = "")) as [->|].
Qed.

Lemma exportClasses_elem l acc x :
  x ∈ (fold_left (exportClass classes students) l acc).1 ↔
  x ∈ acc.1
  ∨ (listed l classes x ∧ is_Some (findById (Some x) students)).
Proof.
  revert acc. induction l as [|cid l IH]; intros acc.
  - simpl. split; [auto|].
    intros [?|[(cid & c & ?%not_elem_of_nil & _) _]]; done.
  - cbn [fold_left]. rewrite IH. unfold exportClass.
    destruct (findById (Some cid) classes) as [[k c]|] eqn:Hf.
    + pose proof (findById_Some _ _ _ _ Hf) as ->.
      rewrite exportStudents_elem. unfold listed. split.
      * intros [[?|[Hin Hs]]|[(cid' & c' & Hc & Hf' & Hin) Hs]]; [by left|..].
        -- right. split; [|done]. exists cid, c. split_and!; [by left|done..].
        -- right. split; [|done]. exists cid', c'.
           split_and!; [by right|done..].
      * intros [?|[(cid' & c' & Hc & Hf' & Hin) Hs]]; [by left; left|].
        apply elem_of_cons in Hc as [->|Hc].
        -- left. right. rewrite Hf in Hf'. by simplify_eq.
        -- right. split; [|done]. by exists cid', c'.
    + unfold listed. split.
      * intros [?|[(cid' & c' & Hc & Hf' & Hin) Hs]]; [by left|].
        right. split; [|done]. exists cid', c'. split_and!; [by right|done..].
      * intros [?|[(cid' & c' & Hc & Hf' & Hin) Hs]]; [by left|].
        apply elem_of_cons in Hc as [->|Hc]; [congruence|].
        right. split; [|done]. by exists cid', c'.
Qed.

(** C9. The export loop emits one row per student id: the ids it has
    exported are pairwise distinct and the rows are their rows, one per
    id and in the same order; an id is exported exactly when a selected
    class lists it and a student document has it.  So a student of
    several selected classes has exactly one row, which carries the
    student's name, phone, e-mail and payment status and the name of a
    selected class that lists the student.  The handler reports that no
    class is selected exactly when the selection is empty, that there is
    nothing to export exactly when no selected class lists a student that
    has a document, and otherwise hands exactly these rows, at least one,
    to [exportToCsv]. *)
Theorem export_deduplicated :
  NoDup (collectExport selectedClassIds classes students).1
  ∧ Forall2 (rowFor selectedClassIds classes students)
      (collectExport selectedClassIds classes students).1
      (collectExport selectedClassIds classes students).2
  ∧ (∀ sid,
       sid ∈ (collectExport selectedClassIds classes students).1 ↔
       listed selectedClassIds classes sid
       ∧ is_Some (findById (Some sid) students))
  ∧ (∀ sid,
       listed selectedClassIds classes sid →
       is_Some (findById (Some sid) students) →
       ∃ i row,
         (collectExport selectedClassIds classes students).1 !! i = Some sid
         ∧ (collectExport selectedClassIds classes students).2 !! i
           = Some row
         ∧ rowFor selectedClassIds classes students sid row
         ∧ ∀ j,
             (collectExport selectedClassIds classes students).1 !! j
             = Some sid →
             j = i)
  ∧ (handleExportStudentsByClass selectedClassIds classes students
     = NoClassSelected ↔
     selectedClassIds = [])
  ∧ (handleExportStudentsByClass selectedClassIds classes students
     = NothingToExport ↔
     selectedClassIds ≠ []
     ∧ ∀ sid, listed selectedClassIds classes sid →
              findById (Some sid) students = None)
  ∧ (∀ rows,
       handleExportStudentsByClass selectedClassIds classes students
       = ExportToCsv rows ↔
       selectedClassIds ≠ [] ∧ rows ≠ []
       ∧ rows = (collectExport selectedClassIds classes students).2).
Proof.
  assert (Hinv : exportInv (rowFor selectedClassIds classes students)
                   (collectExport selectedClassIds classes students)).
  { apply exportClasses_inv; [done|]. split; constructor. }
  assert (Helem : ∀ sid,
            sid ∈ (collectExport selectedClassIds classes students).1 ↔
            listed selectedClassIds classes sid
            ∧ is_Some (findById (Some sid) students)).
  { intros sid. unfold collectExport. rewrite exportClasses_elem. simpl.
    split; [|auto]. intros [?%not_elem_of_nil|?]; done. }
  destruct Hinv as [Hnd Hrows].
  assert (Hsel : length selectedClassIds = 0%nat ↔ selectedClassIds = [])
    by by destruct selectedClassIds.
  assert (Hnone : ¬ (0 < length
                       (collectExport selectedClassIds classes students).2)%nat
                  ↔ ∀ sid, listed selectedClassIds classes sid →
                           findById (Some sid) students = None).
  { rewrite <- (Forall2_length _ _ _ Hrows). split.
    - intros Hlen sid Hl.
      destruct (findById (Some sid) students) as [x|] eqn:Hs; [|done].
      assert (Hin : sid ∈ (collectExport selectedClassIds classes students).1)
        by (apply Helem; rewrite Hs; eauto).
      destruct (collectExport selectedClassIds classes students).1;
        [by apply not_elem_of_nil in Hin|simpl in Hlen; lia].
    - intros Hall Hlen.
      destruct (collectExport selectedClassIds classes students).1
        as [|sid l] eqn:Hids; [simpl in Hlen; lia|].
      destruct (proj1 (Helem sid) ltac:(by left)) as [Hl [x Hx]].
      by rewrite (Hall sid Hl) in Hx. }
  split_and!; [done..| | | |].
  - intros sid Hl Hs.
    pose proof (proj2 (Helem sid) (conj Hl Hs)) as Hin.
    apply list_elem_of_lookup in Hin as [i Hi].
    destruct (Forall2_lookup_l _ _ _ _ _ Hrows Hi) as (row & Hrow & HR).
    exists i, row. split_and!; [done..|].
    intros j Hj. by eapply NoDup_lookup.
  - clear Helem Hrows Hnd Hnone. unfold handleExportStudentsByClass.
    repeat case_bool_decide; split; (done || tauto).
  - clear Helem Hrows Hnd. unfold handleExportStudentsByClass.
    repeat case_bool_decide; split; (done || tauto).
  - clear Helem Hrows Hnd Hnone. intros rows.
    unfold handleExportStudentsByClass.
    repeat case_bool_decide; split; try (done || tauto).
    + intros [= <-]. split_and!; [tauto| |done].
      intros Hnil. rewrite Hnil in *. simpl in *. lia.
    + by intros (_ & _ & ->).
    + intros (_ & Hne & ->). destruct Hne.
      destruct (collectExport selectedClassIds classes students).2;
        [done|simpl in *; lia].
Qed.
End ExportClasses.

(** ** Worked examples *)

(** Payments of 250, 100 and 50 and expenses of 150, 40 and 10. *)
Example totals_example :
  totalRevenue somePayments = 400%float
  ∧ totalExpenses someExpenses = 200%float
  ∧ netIncome somePayments someExpenses = 200%float.
Proof. by vm_compute. Qed.

Example expensesByCategory_example :
  expensesByCategory
    [("E1", expense (Some "general") 150); ("E2", expense None 40);
     ("E3", expense (Some "") 2); ("E4", expense (Some "general") 8)]
  = <["general" := Num 158]> (<[uncategorized := Num 42]> ∅).
Proof. by vm_compute. Qed.

Example revenueByCourse_example :
  revenueByCourse
    [("P1", payment (Some "K1") 250); ("P2", payment None 100);
     ("P3", payment (Some "K9") 30)]
    someCourses
  = <["English" := Num 250]> ∅.
Proof. by vm_compute. Qed.

(** A bucket that holds [NaN] starts again from the next amount, while
    the total stays [NaN]. *)
Example nan_bucket_example :
  expensesByCategory
    [("E1", expense (Some "general") nan); ("E2", expense (Some "general") 8)]
  = <["general" := Num 8]> ∅
  ∧ totalExpenses
      [("E1", expense (Some "general") nan);
       ("E2", expense (Some "general") 8)]
    = nan.
Proof. by vm_compute. Qed.

(** Names that the accumulator inherits: an expense of category
    [__proto__] reaches no bucket, one of category [constructor] makes a
    string. *)
Example inherited_names_example :
  expensesByCategory [("E1", expense (Some "__proto__") 5)] = ∅
  ∧ expensesByCategory
      [("E1", expense (Some "constructor") 5);
       ("E2", expense (Some "constructor") 7)]
    = <["constructor" := Text]> ∅.
Proof. by vm_compute. Qed.

(** A student added with class [C1] is listed by [C1]; once updated to
    class [C2] it is listed by [C2] and no longer by [C1]. *)
Example move_student_example :
  Class.students
    <$> classesCol (addStudent "S1" (studentIn (Some "C1")) twoClasses)
        !! "C1"
  = Some ["S1"]
  ∧ Class.students
      <$> classesCol
            (updateStudent "S1" (studentIn (Some "C2"))
               (addStudent "S1" (studentIn (Some "C1")) twoClasses))
          !! "C1"
    = Some []
  ∧ Class.students
      <$> classesCol
            (updateStudent "S1" (studentIn (Some "C2"))
               (addStudent "S1" (studentIn (Some "C1")) twoClasses))
          !! "C2"
    = Some ["S1"].
Proof. by vm_compute. Qed.

(** A student of both selected classes is exported once. *)
Example export_example :
  handleExportStudentsByClass ["C1"; "C2"] sharedClasses sharedStudents
  = ExportToCsv
      [{| studentName := "Sara"; phoneNumber := "0910000000";
          emailAddress := ""; paymentStatus := unpaidLabel;
          className := "A" |}].
Proof. by vm_compute. Qed.

(** C6, counterexample.  The total is not the sum of the amounts.  With
    payments of 2^53, 1 and 1 the total is 2^53, although the sum
    2^53 + 2 is a double; it is the total of the same payments in the
    opposite order.  Payments of 0.1, 0.2 and 0.3 give 0.6000000000000001
    in this order and 0.6 in the opposite order. *)
Lemma total_is_not_the_sum :
  map (fun p => Payment.amount (snd p)) largePayments
  = [whole (2 ^ 53); whole 1; whole 1]
  ∧ totalRevenue largePayments = whole (2 ^ 53)
  ∧ (totalRevenue largePayments =? whole (2 ^ 53 + 1 + 1))%float = false
  ∧ totalRevenue (rev largePayments) = whole (2 ^ 53 + 1 + 1)
  ∧ totalRevenue tenthPayments = 0.6000000000000001%float
  ∧ totalRevenue (rev tenthPayments) = 0.6%float
  ∧ (totalRevenue tenthPayments =? totalRevenue (rev tenthPayments))%float
    = false.
Proof. by vm_compute. Qed.

Lemma netIncome_spec_witness :
  totalRevenue somePayments = whole (sumList [250; 100; 50])
  ∧ totalExpenses someExpenses = whole (sumList [150; 40; 10])
  ∧ netIncome somePayments someExpenses
    = whole (sumList [250; 100; 50] - sumList [150; 40; 10]).
Proof.
  refine (proj2 (proj2 (proj2 (proj2 (proj2 (proj2
            (netIncome_spec somePayments someExpenses))))))
            [250; 100; 50] [150; 40; 10] _ _ _ _).
  - repeat constructor; lia || reflexivity.
  - repeat constructor; lia || reflexivity.
  - reflexivity.
  - reflexivity.
Defined.

(** C8, counterexample.  With expenses of 0.3 and 0.2 for rent and 0.1
    for water the buckets hold 0.5 and 0.1, which give 0.6 in either
    order, below the total 0.6000000000000001; and an expense whose
    category is [__proto__] is in no bucket. *)
Lemma expense_buckets_miss_total :
  expensesByCategory centExpenses
  = <["rent" := Num 0.5]> (<["water" := Num 0.1]> ∅)
  ∧ totalExpenses centExpenses = 0.6000000000000001%float
  ∧ (∀ values,
       values ≡ₚ numbers (expensesByCategory centExpenses) →
       sumOf values = 0.6%float
       ∧ (sumOf values =? totalExpenses centExpenses)%float = false
       ∧ (sumOf values <? totalExpenses centExpenses)%float = true)
  ∧ expensesByCategory [("E1", expense (Some "__proto__") 5)] = ∅.
Proof.
  split_and!; [by vm_compute..| |by vm_compute].
  intros values Hv. vm_compute in Hv.
  apply Permutation_sym, Permutation_length_2_inv in Hv as [->| ->];
    by vm_compute.
Qed.

Lemma expensesByCategory_total_witness :
  sumOf (numbers (expensesByCategory someExpenses))
  = totalExpenses someExpenses.
Proof.
  refine (proj2 (proj2 (proj2 (proj2
            (expensesByCategory_total someExpenses _)))
            [150; 40; 10] _ _) _ _).
  - apply (bool_decide_unpack _). by vm_compute.
  - repeat constructor; lia || reflexivity.
  - reflexivity.
  - reflexivity.
Defined.



Lemma export_deduplicated_witness :
  ∃ i row,
    (collectExport ["C1"; "C2"] sharedClasses sharedStudents).1 !! i
    = Some "S1"
    ∧ (collectExport ["C1"; "C2"] sharedClasses sharedStudents).2 !! i
      = Some row
    ∧ rowFor ["C1"; "C2"] sharedClasses sharedStudents "S1" row
    ∧ ∀ j,
        (collectExport ["C1"; "C2"] sharedClasses sharedStudents).1 !! j
        = Some "S1" →
        j = i.
Proof.
  refine (proj1 (proj2 (proj2 (proj2
            (export_deduplicated ["C1"; "C2"] sharedClasses sharedStudents))))
            "S1" _ _).
  - exists "C2", (snd (("C2", {| Class.name := "B"; Class.description := "";
             Class.students := ["S1"]; Class.instructors := [] |}))).
    split_and!; [by right; left|reflexivity|by left].
  - by eexists.
Defined.

Example isoDate_examples :
  isoDate 0 = "1970-01-01"
  ∧ isoDate 7200000 = "1970-01-01"
  ∧ isoDate (-1) = "1969-12-31"
  ∧ isoDate 951782400000 = "2000-02-29"
  ∧ isoDate 1709596800000 = "2024-03-05"
  ∧ isoDate 4102444799999 = "2099-12-31".
Proof. by vm_compute. Qed.

(** * Further properties of the code *)

(** ** Class operations and the relation *)

Lemma withStudents_id f c :
  f (Class.students c) = Class.students c → withStudents f c = c.
Proof. destruct c. unfold withStudents. simpl. by intros ->. Qed.

Lemma filter_absent (id : string) (l : list string) :
  id ∉ l → filter (fun x => x ≠ id) l = l.
Proof.
  induction l as [|x l IH]; intros Hid; [done|].
  apply not_elem_of_cons in Hid as [Hne Hid].
  rewrite filter_cons_True by done. by rewrite IH.
Qed.

(** X1. [updateClass] with an object that has no [students] field (the
    edit form of a class, the assignment of instructors) keeps the
    student/class relation consistent and the class lists
    duplicate-free. *)
Theorem updateClass_keeps_relation classId p st :
  Class.newStudents p = None →
  consistent st → duplicateFree st →
  consistent (updateClass classId p st)
  ∧ duplicateFree (updateClass classId p st).
Proof.
  intros Hp [Hag Hne] Hnd.
  assert (Hl : ∀ cid c,
            classesCol (updateClass classId p st) !! cid = Some c →
            ∃ c0, classesCol st !! cid = Some c0
                  ∧ Class.students c = Class.students c0).
  { intros cid c. unfold updateClass. simpl. rewrite lookup_updateIn.
    case_decide; [|eauto].
    destruct (classesCol st !! cid) as [c0|]; [|done]. simpl.
    intros [= <-]. exists c0. split; [done|].
    unfold Class.apply. simpl. by rewrite Hp. }
  split; [split|].
  - intros sid s cid c Hs Hc. apply Hl in Hc as (c0 & Hc0 & ->).
    by apply (Hag sid s cid c0).
  - unfold classIdsNonEmpty, updateClass. simpl.
    rewrite lookup_updateIn. case_decide; [|done].
    unfold classIdsNonEmpty in Hne. by rewrite Hne.
  - intros cid c Hc. apply Hl in Hc as (c0 & Hc0 & ->). by eapply Hnd.
Qed.

Lemma updateClass_keeps_relation_witness :
  consistent (assignInstructorsToClass "C1" ["I1"; "I2"] twoClasses)
  ∧ duplicateFree (assignInstructorsToClass "C1" ["I1"; "I2"] twoClasses).
Proof.
  refine (updateClass_keeps_relation "C1" _ twoClasses _ _ _).
  - reflexivity.
  - apply twoClasses_consistent.
  - apply twoClasses_duplicateFree.
Defined.

(** X2. In a consistent store where the class exists, the bulk
    assignment of students leaves the relation consistent exactly when
    the submitted ids are, among the student documents, the ids of the
    students that already point at the class. *)
Theorem assignStudentsToClass_agree classId idSet st c :
  agree st →
  classesCol st !! classId = Some c →
  agree (assignStudentsToClass classId idSet st) ↔
  ∀ sid s, studentsCol st !! sid = Some s →
    (sid ∈ idSet ↔ Student.classId s = Some classId).
Proof.
  intros Hag Hc. unfold assignStudentsToClass, updateClass. split.
  - intros Hag' sid s Hs. symmetry.
    refine (Hag' sid s classId
              (Class.apply (Class.studentsOnly idSet) c) Hs _).
    simpl. by rewrite lookup_updateIn, decide_True, Hc.
  - intros Hset sid s cid c' Hs. simpl. rewrite lookup_updateIn.
    case_decide as Hcid.
    + subst cid. rewrite Hc. simpl. intros [= <-]. simpl.
      symmetry. by apply Hset.
    + intros Hc'. by apply (Hag sid s cid c').
Qed.

(** The store with the two students of [C1]: the class lists them in the
    order in which they were added. *)
Lemma twoStudents_class :
  classesCol twoStudents !! "C1"
  = Some {| Class.name := "A"; Class.description := "";
            Class.students := ["S1"; "S2"]; Class.instructors := [] |}.
Proof. by vm_compute. Defined.

Lemma twoStudents_consistent : consistent twoStudents.
Proof.
  split; [|by vm_compute].
  intros sid s cid c Hs Hc. revert cid c Hc. revert sid s Hs.
  apply (bool_decide_unpack
           (map_Forall
              (fun sid s =>
                 map_Forall
                   (fun cid c =>
                      Student.classId s = Some cid ↔ sid ∈ Class.students c)
                   (classesCol twoStudents))
              (studentsCol twoStudents))).
  by vm_compute.
Defined.

Lemma twoStudents_duplicateFree : duplicateFree twoStudents.
Proof.
  apply (bool_decide_unpack
           (map_Forall (fun _ c => NoDup (Class.students c))
              (classesCol twoStudents))).
  by vm_compute.
Defined.

Lemma twoStudents_listsPresent : listsPresent twoStudents.
Proof.
  intros cid c sid Hc Hin. revert sid Hin. apply Forall_forall.
  revert cid c Hc.
  apply (bool_decide_unpack
           (map_Forall
              (fun _ c =>
                 Forall (fun sid => is_Some (studentsCol twoStudents !! sid))
                   (Class.students c))
              (classesCol twoStudents))).
  by vm_compute.
Defined.

(** Submitting the two students of [C1] in the other order keeps the
    relation; submitting only one of them breaks it. *)
Lemma assignStudentsToClass_agree_witness :
  agree (assignStudentsToClass "C1" ["S2"; "S1"] twoStudents)
  ∧ ¬ agree (assignStudentsToClass "C1" ["S1"] twoStudents).
Proof.
  split.
  - refine (proj2 (assignStudentsToClass_agree "C1" ["S2"; "S1"] twoStudents
                     _ (proj1 twoStudents_consistent) twoStudents_class) _).
    apply (bool_decide_unpack
             (map_Forall
                (fun sid s =>
                   sid ∈ ["S2"; "S1"] ↔ Student.classId s = Some "C1")
                (studentsCol twoStudents))).
    by vm_compute.
  - intros Hag.
    pose proof (proj1 (assignStudentsToClass_agree "C1" ["S1"] twoStudents
                         _ (proj1 twoStudents_consistent) twoStudents_class)
                  Hag "S2" (studentIn (Some "C1")) eq_refl) as [_ Hin].
    specialize (Hin eq_refl). set_solver.
Defined.



(** X4. Deleting a student that is in a consistent store removes the
    document and leaves the id in no class list; the other ids stay in
    the lists they were in and no class is added or removed. *)
Theorem deleteStudent_effect studentId st :
  consistent st →
  is_Some (studentsCol st !! studentId) →
  studentsCol (deleteStudent studentId st) !! studentId = None
  ∧ dom (classesCol (deleteStudent studentId st)) = dom (classesCol st)
  ∧ ∀ cid c,
      classesCol (deleteStudent studentId st) !! cid = Some c →
      (studentId ∉ Class.students c)
      ∧ ∃ c0, classesCol st !! cid = Some c0
              ∧ ∀ sid, sid ≠ studentId →
                  (sid ∈ Class.students c ↔ sid ∈ Class.students c0).
Proof.
  intros [Hag Hne] [s Hs]. split_and!.
  - rewrite deleteStudent_students. apply lookup_delete_eq.
  - apply set_eq. intros cid.
    rewrite !elem_of_dom, deleteStudent_classes. cbv zeta.
    case_decide; [|done]. by rewrite fmap_is_Some.
  - intros cid c. rewrite deleteStudent_classes. cbv zeta.
    rewrite (classIdOf_Some _ _ _ Hs).
    destruct (classesCol st !! cid) as [c0|] eqn:Hc0; [|by case_decide].
    pose proof (Hag studentId s cid c0 Hs Hc0) as Hold.
    case_decide as Hd; intros Hc; simpl in Hc; simplify_eq.
    + rewrite students_withStudents. split.
      * rewrite list_elem_of_filter. naive_solver.
      * exists c0. split; [done|]. intros sid Hsid.
        rewrite list_elem_of_filter. naive_solver.
    + split; [|by eauto].
      intros Hin. apply Hold in Hin. apply Hd. split; [|done].
      rewrite Hin. simpl. apply bool_decide_eq_true.
      intros ->. unfold classIdsNonEmpty in Hne. congruence.
Qed.

Lemma deleteStudent_effect_witness :
  studentsCol
    (deleteStudent "S1" (addStudent "S1" (studentIn (Some "C1")) twoClasses))
  !! "S1" = None.
Proof.
  refine (proj1 (deleteStudent_effect "S1"
                   (addStudent "S1" (studentIn (Some "C1")) twoClasses) _ _)).
  - apply (exec_consistent (AddStudent "S1" (studentIn (Some "C1")))).
    + apply twoClasses_consistent.
    + by apply twoClasses_unused.
  - exists (studentIn (Some "C1")). vm_compute. reflexivity.
Defined.

(** *** The stamps the student operations leave *)

Lemma length_snoc {A} (l : list A) (x : A) : length (l ++ [x]) = S (length l).
Proof. rewrite length_app. simpl. lia. Qed.

Lemma touched_twice t1 t2 b1 b2 m :
  touched t2 b2 (touched t1 b1 m)
  = {| createdAt := createdAt m; updatedAt := Some t2;
       idField := idField m || b1 || b2 |}.
Proof. done. Qed.

Lemma addStudent_clock newId s st : clock (addStudent newId s st) = clock st.
Proof.
  unfold addStudent. simpl.
  destruct (truthy newId && truthyOpt (Student.classId s)); [|done].
  destruct (findById _ _) as [[cid c]|]; done.
Qed.

Lemma addStudent_studentStamps newId s st :
  studentStamps (addStudent newId s st)
  = <[newId := created (now st)]> (studentStamps st).
Proof.
  unfold addStudent. simpl.
  destruct (truthy newId && truthyOpt (Student.classId s)); [|done].
  destruct (findById _ _) as [[cid c]|]; done.
Qed.

Lemma addStudent_requests newId s st cid :
  newId ≠ "" →
  enrolsIn st (Student.classId s) cid →
  length (requests (addStudent newId s st)) = S (S (length (requests st))).
Proof.
  intros Hid (Ht & Hc & [c Hl]). unfold addStudent. simpl.
  rewrite (bool_decide_eq_true_2 (newId ≠ "") Hid : truthy newId = true).
  rewrite Ht, Hc, findById_snapshot, Hl. simpl.
  by rewrite !length_snoc.
Qed.

Lemma addStudent_classStamps newId s st cid :
  newId ≠ "" →
  classStamps (addStudent newId s st) !! cid
  = if decide (enrolsIn st (Student.classId s) cid)
    then Some (touched (clock st (S (length (requests st)))) false
                 (default noStamps (classStamps st !! cid)))
    else classStamps st !! cid.
Proof.
  intros Hid.
  destruct (decide (enrolsIn st (Student.classId s) cid))
    as [(Ht & Hc & [c Hl])|He]; unfold addStudent; simpl;
    rewrite (bool_decide_eq_true_2 (newId ≠ "") Hid : truthy newId = true);
    simpl.
  - rewrite Ht, Hc, findById_snapshot, Hl. simpl.
    rewrite lookup_stampIn, decide_True by (rewrite Hl; eauto).
    unfold now. simpl. by rewrite length_snoc.
  - destruct (truthyOpt (Student.classId s)) eqn:Ht; [|done].
    destruct (truthyOpt_Some _ Ht) as (c0 & Hc0 & Hne). rewrite Hc0.
    rewrite findById_snapshot.
    destruct (classesCol st !! c0) as [c|] eqn:Hl; simpl; [|done].
    rewrite lookup_stampIn, decide_False; [done|].
    intros [-> Hs]. by apply He.
Qed.

Lemma deleteStudent_studentStamps sid st :
  studentStamps (deleteStudent sid st) = delete sid (studentStamps st).
Proof.
  unfold deleteStudent. rewrite classIdOf_find.
  destruct (truthyOpt _); [|done].
  destruct (findById _ _) as [[? ?]|]; done.
Qed.

Lemma deleteStudent_classStamps sid st cid :
  classStamps (deleteStudent sid st) !! cid
  = if decide (enrolsIn st (classIdOf st sid) cid)
    then Some (touched (clock st (S (length (requests st)))) false
                 (default noStamps (classStamps st !! cid)))
    else classStamps st !! cid.
Proof.
  destruct (decide (enrolsIn st (classIdOf st sid) cid))
    as [(Ht & Hc & [c Hl])|He]; unfold deleteStudent;
    rewrite classIdOf_find; simpl.
  - rewrite Ht, Hc, findById_snapshot, Hl. simpl.
    rewrite lookup_stampIn, decide_True by (rewrite Hl; eauto).
    unfold now. simpl. by rewrite length_snoc.
  - destruct (truthyOpt (classIdOf st sid)) eqn:Ht; [|done].
    destruct (truthyOpt_Some _ Ht) as (c0 & Hc0 & Hne). rewrite Hc0.
    rewrite findById_snapshot.
    destruct (classesCol st !! c0) as [c|] eqn:Hl; simpl; [|done].
    rewrite lookup_stampIn, decide_False; [done|].
    intros [-> Hs]. by apply He.
Qed.

(** X5. Adding a student under an unused id and deleting it again gives
    back the data of the two collections, not the stamps: the class that
    the student named, when it exists, has been updated twice and carries
    the [updatedAt] stamp of the second update, the fourth request of the
    two operations; every other class keeps its stamps, and the stamps of
    the student are gone with the document. *)
Theorem add_then_delete_student newId newStudent st :
  unusedId st newId →
  studentsCol (deleteStudent newId (addStudent newId newStudent st))
  = studentsCol st
  ∧ classesCol (deleteStudent newId (addStudent newId newStudent st))
    = classesCol st
  ∧ studentStamps (deleteStudent newId (addStudent newId newStudent st))
    = delete newId (studentStamps st)
  ∧ ∀ cid,
      classStamps (deleteStudent newId (addStudent newId newStudent st))
      !! cid
      = if decide (enrolsIn st (Student.classId newStudent) cid)
        then
          Some {| createdAt :=
                    createdAt (default noStamps (classStamps st !! cid));
                  updatedAt := Some (clock st (length (requests st) + 3));
                  idField :=
                    idField (default noStamps (classStamps st !! cid)) |}
        else classStamps st !! cid.
Proof.
  intros (Hid & Hfresh & Hlists).
  assert (Hcls : classIdOf (addStudent newId newStudent st) newId
                 = Student.classId newStudent).
  { apply classIdOf_Some. rewrite addStudent_students.
    apply lookup_insert_eq. }
  split_and!.
  - rewrite deleteStudent_students, addStudent_students.
    rewrite delete_insert_eq. by apply delete_id.
  - apply map_eq. intros cid.
    rewrite deleteStudent_classes. cbv zeta.
    rewrite Hcls, addStudent_classes.
    destruct (classesCol st !! cid) as [c|] eqn:Hc; [|by repeat case_decide].
    repeat case_decide; destruct_and?; simpl; try done.
    + f_equal. unfold withStudents at 1. rewrite students_withStudents.
      rewrite filter_app, filter_absent by by eapply Hlists.
      rewrite filter_cons_False, filter_nil, app_nil_r by naive_solver.
      destruct c. done.
    + naive_solver.
    + naive_solver.
  - rewrite deleteStudent_studentStamps, addStudent_studentStamps.
    apply delete_insert_eq.
  - intros cid. rewrite deleteStudent_classStamps, Hcls.
    rewrite addStudent_clock.
    assert (Hiff : enrolsIn (addStudent newId newStudent st)
                     (Student.classId newStudent) cid
                   ↔ enrolsIn st (Student.classId newStudent) cid).
    { unfold enrolsIn. rewrite addStudent_classes.
      case_decide; rewrite ?fmap_is_Some; done. }
    destruct (decide (enrolsIn st (Student.classId newStudent) cid))
      as [He|He].
    + rewrite decide_True by by apply Hiff.
      rewrite (addStudent_requests _ _ _ cid) by done.
      rewrite addStudent_classStamps, decide_True by done.
      cbn [default from_option id].
      rewrite touched_twice, !orb_false_r.
      by replace (length (requests st) + 3)%nat
        with (S (S (S (length (requests st))))) by lia.
    + rewrite decide_False by by rewrite Hiff.
      by rewrite addStudent_classStamps, decide_False by done.
Qed.

Lemma add_then_delete_student_witness :
  classStamps
    (deleteStudent "S1" (addStudent "S1" (studentIn (Some "C1")) twoClasses))
  !! "C1"
  = Some {| createdAt := Some (-2); updatedAt := Some 3; idField := false |}.
Proof.
  assert (He : enrolsIn twoClasses (Student.classId (studentIn (Some "C1")))
                 "C1").
  { split_and!; [done..|]. by exists (emptyClass "A"). }
  pose proof (proj2 (proj2 (proj2
                (add_then_delete_student "S1" (studentIn (Some "C1"))
                   twoClasses (twoClasses_unused "S1" ltac:(done)))))
              "C1") as H.
  rewrite decide_True in H by exact He. exact H.
Defined.

(** *** The stamps [deleteClass] leaves *)


Lemma clearClassIds_clock l st : clock (clearClassIds l st) = clock st.
Proof.
  revert st. induction l as [|x l IH]; intros st; [done|].
  simpl. by rewrite IH.
Qed.







(** X7. [updateStudent] for a student of the collection writes the new
    data and touches at most two class documents, the one of the old and
    the one of the new [classId]; when the [classId] does not change, the
    classes collection is unchanged. *)
Theorem updateStudent_frame studentId updatedData st s :
  studentsCol st !! studentId = Some s →
  studentsCol (updateStudent studentId updatedData st) !! studentId
  = Some updatedData
  ∧ (∀ sid, sid ≠ studentId →
       studentsCol (updateStudent studentId updatedData st) !! sid
       = studentsCol st !! sid)
  ∧ (∀ cid,
       Student.classId s ≠ Some cid →
       Student.classId updatedData ≠ Some cid →
       classesCol (updateStudent studentId updatedData st) !! cid
       = classesCol st !! cid)
  ∧ (Student.classId updatedData = Student.classId s →
     classesCol (updateStudent studentId updatedData st) = classesCol st).
Proof.
  intros Hs. split_and!.
  - rewrite updateStudent_students, lookup_updateIn, decide_True, Hs; done.
  - intros sid Hsid.
    by rewrite updateStudent_students, lookup_updateIn, decide_False.
  - intros cid Hold Hnew. rewrite updateStudent_classes. cbv zeta.
    rewrite (classIdOf_Some _ _ _ Hs). split_cases.
  - intros Heq. apply map_eq. intros cid.
    rewrite updateStudent_classes. cbv zeta.
    rewrite (classIdOf_Some _ _ _ Hs). by rewrite decide_True.
Qed.

Lemma updateStudent_frame_witness :
  classesCol
    (updateStudent "S1" (studentIn (Some "C1"))
       (addStudent "S1" (studentIn (Some "C1")) twoClasses))
  = classesCol (addStudent "S1" (studentIn (Some "C1")) twoClasses).
Proof.
  refine (proj2 (proj2 (proj2
            (updateStudent_frame "S1" (studentIn (Some "C1"))
               (addStudent "S1" (studentIn (Some "C1")) twoClasses)
               (studentIn (Some "C1")) _))) _).
  - vm_compute. reflexivity.
  - reflexivity.
Defined.

(** ** Reports and the relation *)

(** X8. In a consistent store whose class lists are duplicate-free and
    list only ids of student documents, the enrollment figure of a class
    is the number of student documents that point at the class. *)
Theorem classEnrollment_counts_students st cid c :
  consistent st → duplicateFree st → listsPresent st →
  classesCol st !! cid = Some c →
  (Class.name c,
   Z.of_nat
     (size (filter (fun x => Student.classId x.2 = Some cid)
              (studentsCol st))))
  ∈ classEnrollmentData (snapshot (classesCol st)).
Proof.
  intros [Hag _] Hnd Hpres Hc.
  unfold classEnrollmentData. apply list_elem_of_In, in_map_iff.
  exists (cid, c). split.
  - simpl. do 2 f_equal.
    rewrite <- (size_list_to_set (C := gset string)) by by eapply Hnd.
    rewrite <- size_dom. f_equal. apply set_eq. intros sid.
    rewrite elem_of_list_to_set, elem_of_dom. split.
    + intros Hin. destruct (Hpres cid c sid Hc Hin) as [s Hs].
      exists s. apply map_lookup_filter_Some. split; [done|].
      simpl. by apply (Hag sid s cid c).
    + intros [s [Hs Hp]%map_lookup_filter_Some]. simpl in Hp.
      by apply (Hag sid s cid c).
  - apply list_elem_of_In. unfold snapshot. by apply elem_of_map_to_list.
Qed.

Lemma twoClasses_listsPresent : listsPresent twoClasses.
Proof.
  intros cid c sid Hc. cbn [twoClasses classesCol] in Hc.
  apply lookup_insert_Some in Hc as [[_ <-]|[_ Hc]];
    [by intros ?%not_elem_of_nil|].
  apply lookup_insert_Some in Hc as [[_ <-]|[_ Hc]];
    [by intros ?%not_elem_of_nil|].
  by rewrite lookup_empty in Hc.
Defined.

(** Class [A] of the store with two students has two students. *)
Lemma classEnrollment_counts_students_witness :
  ("A", 2) ∈ classEnrollmentData (snapshot (classesCol twoStudents)).
Proof.
  pose proof (classEnrollment_counts_students twoStudents "C1" _
                twoStudents_consistent twoStudents_duplicateFree
                twoStudents_listsPresent twoStudents_class) as H.
  assert (Hsize : Z.of_nat
                    (size (filter (fun x => Student.classId x.2 = Some "C1")
                             (studentsCol twoStudents))) = 2)
    by by vm_compute.
  rewrite Hsize in H. exact H.
Defined.

(** X9. The two pie slices split the students: the unpaid figure is the
    number of students whose [paid] flag is not set, and the two figures
    add up to the number of students. *)
Theorem paid_unpaid_split students :
  unpaidStudentsCount students
  = Z.of_nat
      (length (filter (fun s => Student.paid (snd s) ≠ true) students))
  ∧ paidStudentsCount students + unpaidStudentsCount students
    = Z.of_nat (length students)
  ∧ 0 ≤ paidStudentsCount students
  ∧ 0 ≤ unpaidStudentsCount students.
Proof.
  assert (H : (length (filter (fun s => Student.paid (snd s) = true) students)
               + length (filter (fun s => Student.paid (snd s) ≠ true) students)
               = length students)%nat).
  { induction students as [|x l IH]; [done|].
    destruct (decide (Student.paid x.2 = true)) as [Hp|Hp].
    - rewrite filter_cons_True by done.
      rewrite (filter_cons_False (fun s => Student.paid s.2 ≠ true))
        by naive_solver.
      simpl. lia.
    - rewrite filter_cons_False by done.
      rewrite (filter_cons_True (fun s => Student.paid s.2 ≠ true)) by done.
      simpl. lia. }
  unfold unpaidStudentsCount, paidStudentsCount. lia.
Qed.

(** ** The attendance roster *)

Lemma filter_ext_elem {A} (P Q : A → Prop) `{!∀ x, Decision (P x)}
  `{!∀ x, Decision (Q x)} (l : list A) :
  (∀ x, x ∈ l → P x ↔ Q x) → filter P l = filter Q l.
Proof.
  induction l as [|x l IH]; intros Hext; [done|].
  assert (Hl : filter P l = filter Q l).
  { apply IH. intros y Hy. apply Hext. by right. }
  pose proof (Hext x ltac:(left)) as Hx.
  destruct (decide (P x)) as [HP|HP].
  - rewrite !filter_cons_True by naive_solver. by rewrite Hl.
  - rewrite !filter_cons_False by naive_solver. done.
Qed.

(** X10. In a consistent store, the roster that the attendance page
    shows for a class of the collection consists of exactly the students
    whose [classId] is that class: it is the list of students that
    [deleteClass] would clear. *)
Theorem classRoster_is_class st selectedClassId c :
  consistent st →
  classesCol st !! selectedClassId = Some c →
  classRoster selectedClassId (snapshot (classesCol st))
    (snapshot (studentsCol st))
  = studentsInClass selectedClassId (snapshot (studentsCol st)).
Proof.
  intros [Hag Hne] Hc. unfold classRoster, studentsInClass.
  assert (Hid : truthy selectedClassId = true).
  { apply bool_decide_eq_true. intros ->.
    unfold classIdsNonEmpty in Hne. congruence. }
  rewrite Hid, findById_snapshot, Hc. simpl.
  apply filter_ext_elem. intros [sid s] Hin. simpl.
  apply elem_of_map_to_list in Hin. symmetry. by apply (Hag sid s).
Qed.

Lemma classRoster_is_class_witness :
  classRoster "C1"
    (snapshot (classesCol (addStudent "S1" (studentIn (Some "C1")) twoClasses)))
    (snapshot (studentsCol (addStudent "S1" (studentIn (Some "C1")) twoClasses)))
  = studentsInClass "C1"
      (snapshot
         (studentsCol (addStudent "S1" (studentIn (Some "C1")) twoClasses))).
Proof.
  refine (classRoster_is_class
            (addStudent "S1" (studentIn (Some "C1")) twoClasses) "C1"
            (withStudents (fun _ => ["S1"]) (emptyClass "A")) _ _).
  - apply (exec_consistent (AddStudent "S1" (studentIn (Some "C1")))).
    + apply twoClasses_consistent.
    + by apply twoClasses_unused.
  - vm_compute. reflexivity.
Defined.

(** ** Selections *)

(** X11. Clicking the box of an id in an assignment modal flips the
    membership of that id, keeps the membership of every other id, and
    keeps a duplicate-free selection duplicate-free. *)
Theorem handleCheckboxChange_toggles id prevSelected :
  NoDup prevSelected →
  NoDup (handleCheckboxChange id prevSelected)
  ∧ (id ∈ handleCheckboxChange id prevSelected ↔ id ∉ prevSelected)
  ∧ ∀ x, x ≠ id →
      (x ∈ handleCheckboxChange id prevSelected ↔ x ∈ prevSelected).
Proof.
  intros Hnd. unfold handleCheckboxChange.
  case_bool_decide as Hin; split_and!.
  - by apply NoDup_filter.
  - rewrite list_elem_of_filter. naive_solver.
  - intros x Hx. rewrite list_elem_of_filter. naive_solver.
  - apply NoDup_app. split_and!; [done| |apply NoDup_singleton].
    by intros x Hx ->%list_elem_of_singleton.
  - set_solver.
  - set_solver.
Qed.

Lemma handleCheckboxChange_toggles_witness :
  NoDup (handleCheckboxChange "S2" ["S1"; "S2"; "S3"]).
Proof.
  refine (proj1 (handleCheckboxChange_toggles "S2" ["S1"; "S2"; "S3"] _)).
  repeat constructor; set_solver.
Defined.

(** X12. Clicking the same box twice gives back a duplicate-free
    selection up to the order of its ids, and exactly when the id was
    not selected before. *)
Theorem handleCheckboxChange_twice id prevSelected :
  NoDup prevSelected →
  handleCheckboxChange id (handleCheckboxChange id prevSelected)
  ≡ₚ prevSelected
  ∧ (id ∉ prevSelected →
     handleCheckboxChange id (handleCheckboxChange id prevSelected)
     = prevSelected).
Proof.
  intros Hnd.
  assert (Hout : id ∉ prevSelected →
            handleCheckboxChange id (handleCheckboxChange id prevSelected)
            = prevSelected).
  { intros Hid. unfold handleCheckboxChange.
    rewrite (bool_decide_eq_false_2 (id ∈ prevSelected)) by done.
    rewrite bool_decide_eq_true_2 by set_solver.
    rewrite filter_app, filter_absent by done.
    by rewrite filter_cons_False, filter_nil, app_nil_r by naive_solver. }
  split; [|done].
  destruct (decide (id ∈ prevSelected)) as [Hin|Hid]; [|by rewrite Hout].
  apply NoDup_Permutation; [|done|].
  - by do 2 apply handleCheckboxChange_toggles.
  - intros x. destruct (decide (x = id)) as [->|Hx].
    + destruct (handleCheckboxChange_toggles id prevSelected Hnd)
        as (Hnd1 & Hid1 & _).
      destruct (handleCheckboxChange_toggles id _ Hnd1) as (_ & Hid2 & _).
      rewrite Hid2, Hid1. split; [done|]. intros _ Hno. by apply Hno.
    + destruct (handleCheckboxChange_toggles id prevSelected Hnd)
        as (Hnd1 & _ & Hx1).
      destruct (handleCheckboxChange_toggles id _ Hnd1) as (_ & _ & Hx2).
      by rewrite Hx2, Hx1.
Qed.

Lemma handleCheckboxChange_twice_witness :
  handleCheckboxChange "S2" (handleCheckboxChange "S2" ["S1"; "S2"; "S3"])
  ≡ₚ ["S1"; "S2"; "S3"].
Proof.
  refine (proj1 (handleCheckboxChange_twice "S2" ["S1"; "S2"; "S3"] _)).
  repeat constructor; set_solver.
Defined.

(** X13. In the class selection of the reports page, unticking a class
    removes every occurrence of its id and keeps the other ids in their
    order; ticking a class that is not selected keeps a duplicate-free
    selection duplicate-free, and unticking it again gives back the
    selection. *)
Theorem handleClassSelectionChange_spec value prev :
  (value ∉ handleClassSelectionChange value false prev)
  ∧ (∀ x, x ≠ value →
       (x ∈ handleClassSelectionChange value false prev ↔ x ∈ prev))
  ∧ handleClassSelectionChange value false prev `sublist_of` prev
  ∧ (value ∉ prev → NoDup prev →
     NoDup (handleClassSelectionChange value true prev))
  ∧ (value ∉ prev →
     handleClassSelectionChange value false
       (handleClassSelectionChange value true prev)
     = prev).
Proof.
  unfold handleClassSelectionChange. split_and!.
  - rewrite list_elem_of_filter. naive_solver.
  - intros x Hx. rewrite list_elem_of_filter. naive_solver.
  - apply sublist_filter.
  - intros Hv Hnd. apply NoDup_app.
    split_and!; [done| |apply NoDup_singleton].
    by intros x Hx ->%list_elem_of_singleton.
  - intros Hv. rewrite filter_app, filter_absent by done.
    by rewrite filter_cons_False, filter_nil, app_nil_r by naive_solver.
Qed.

Lemma handleClassSelectionChange_spec_witness :
  handleClassSelectionChange "C2" false
    (handleClassSelectionChange "C2" true ["C1"])
  = ["C1"].
Proof.
  refine (proj2 (proj2 (proj2 (proj2
            (handleClassSelectionChange_spec "C2" ["C1"])))) _).
  set_solver.
Defined.

(** ** More on the export *)

Lemma exportStudents_skip students selectedClass l acc :
  (∀ sid, sid ∈ l →
     sid ∈ acc.1 ∨ findById (Some sid) students = None) →
  fold_left (exportStudent students selectedClass) l acc = acc.
Proof.
  induction l as [|sid l IH]; intros Hl; [done|].
  cbn [fold_left].
  assert (Hstep : exportStudent students selectedClass acc sid = acc).
  { destruct acc as [exported rows]. unfold exportStudent.
    case_bool_decide as Hin; [done|].
    destruct (Hl sid ltac:(left)) as [? | ->]; done. }
  rewrite Hstep. apply IH. intros sid' Hin. apply Hl. by right.
Qed.

(** X14. Selecting a class a second time does not change the export:
    the ids and the rows collected for a selection that repeats one of
    its classes are those collected without the repetition. *)
Theorem export_repeated_class selectedClassIds classId classes students :
  classId ∈ selectedClassIds →
  collectExport (selectedClassIds ++ [classId]) classes students
  = collectExport selectedClassIds classes students.
Proof.
  intros Hin. unfold collectExport. rewrite fold_left_app. cbn [fold_left].
  set (acc := fold_left (exportClass classes students) selectedClassIds
                ([], [])).
  unfold exportClass at 1.
  destruct (findById (Some classId) classes) as [[k c]|] eqn:Hf; [|done].
  pose proof (findById_Some _ _ _ _ Hf) as ->.
  apply exportStudents_skip. intros sid Hsid.
  destruct (findById (Some sid) students) as [x|] eqn:Hs; [left|by right].
  subst acc. apply exportClasses_elem. right. split; [|by eexists].
  by exists classId, c.
Qed.

Lemma export_repeated_class_witness :
  collectExport (["C1"; "C2"] ++ ["C1"]) sharedClasses sharedStudents
  = collectExport ["C1"; "C2"] sharedClasses sharedStudents.
Proof.
  refine (export_repeated_class ["C1"; "C2"] "C1" sharedClasses
            sharedStudents _).
  by left.
Defined.

(** X15. The students that are exported and the number of rows depend
    only on which classes are selected, not on the order in which they
    were ticked. *)
Theorem export_order_independent sel1 sel2 classes students :
  (∀ cid, cid ∈ sel1 ↔ cid ∈ sel2) →
  (collectExport sel1 classes students).1
  ≡ₚ (collectExport sel2 classes students).1
  ∧ length (collectExport sel1 classes students).2
    = length (collectExport sel2 classes students).2.
Proof.
  intros Hsel.
  assert (Hinv : ∀ sel,
            exportInv (rowFor sel classes students)
              (collectExport sel classes students)).
  { intros sel. apply exportClasses_inv; [done|]. split; constructor. }
  assert (Hperm : (collectExport sel1 classes students).1
                  ≡ₚ (collectExport sel2 classes students).1).
  { apply NoDup_Permutation; [apply Hinv..|].
    intros sid. unfold collectExport. rewrite !exportClasses_elem.
    unfold listed. simpl. split.
    - intros [?%not_elem_of_nil|[(cid & c & Hc & Hrest) Hs]]; [done|].
      right. split; [|done]. exists cid, c. split; [by apply Hsel|done].
    - intros [?%not_elem_of_nil|[(cid & c & Hc & Hrest) Hs]]; [done|].
      right. split; [|done]. exists cid, c. split; [by apply Hsel|done]. }
  split; [done|].
  destruct (Hinv sel1) as [_ H1]. destruct (Hinv sel2) as [_ H2].
  apply Forall2_length in H1, H2. rewrite <- H1, <- H2.
  by apply Permutation_length.
Qed.

Lemma export_order_independent_witness :
  length (collectExport ["C1"; "C2"] sharedClasses sharedStudents).2
  = length (collectExport ["C2"; "C1"] sharedClasses sharedStudents).2.
Proof.
  refine (proj2 (export_order_independent ["C1"; "C2"] ["C2"; "C1"]
                   sharedClasses sharedStudents _)).
  intros cid. set_solver.
Defined.

(** ** More on the attendance upsert *)

Lemma string_length_append (s t : string) :
  String.length (s +:+ t) = (String.length s + String.length t)%nat.
Proof. induction s as [|c s IH]; simpl; [done|]. by rewrite IH. Qed.

Lemma string_append_inj_r (s1 s2 t : string) :
  s1 +:+ t = s2 +:+ t → s1 = s2.
Proof.
  revert s2. induction s1 as [|c s1 IH]; intros [|c' s2] Heq; simpl in Heq.
  - done.
  - apply (f_equal String.length) in Heq.
    rewrite ?string_length_append in Heq. simpl in Heq.
    rewrite ?string_length_append in Heq. lia.
  - apply (f_equal String.length) in Heq.
    rewrite ?string_length_append in Heq. simpl in Heq.
    rewrite ?string_length_append in Heq. lia.
  - injection Heq as -> Heq. f_equal. by apply IH.
Qed.

Lemma string_append_nil_l (s : string) : "" +:+ s = s.
Proof. reflexivity. Qed.

Lemma string_append_cons c (s t : string) :
  String c s +:+ t = String c (s +:+ t).
Proof. reflexivity. Qed.

Lemma hyphen_split (a a' x x' : string) :
  hyphenFree a = true → hyphenFree a' = true →
  a +:+ "-" +:+ x = a' +:+ "-" +:+ x' → a = a' ∧ x = x'.
Proof.
  revert a'. induction a as [|c a IH]; intros [|c' a'] Ha Ha' Heq;
    rewrite ?string_append_nil_l, ?string_append_cons,
      ?string_append_nil_l in Heq;
    cbn [hyphenFree] in Ha, Ha'.
  - injection Heq as ->. by split.
  - injection Heq as <- _.
    apply andb_true_iff in Ha' as [Hc _].
    by rewrite bool_decide_eq_true_2 in Hc.
  - injection Heq as -> _.
    apply andb_true_iff in Ha as [Hc _].
    by rewrite bool_decide_eq_true_2 in Hc.
  - injection Heq as -> Heq.
    apply andb_true_iff in Ha as [_ Ha].
    apply andb_true_iff in Ha' as [_ Ha'].
    destruct (IH a' Ha Ha' Heq) as [-> ->]. done.
Qed.

Section AttendanceMore.
Variable isoDay : Z → string.
Implicit Types (m : gmap string (gmap string Attendance.value)).
Implicit Types (r : Attendance.record).
Implicit Types (writes : list (Z * Z * Attendance.record)).

(** X16. When the ids of students, classes and instructors contain no
    hyphen, two records get the same attendance document id only if they
    have the same student, class, instructor and calendar day. *)
Theorem attendanceDocId_injective r1 r2 :
  hyphenFree (Attendance.studentId r1) = true →
  hyphenFree (Attendance.classId r1) = true →
  hyphenFree (Attendance.instructorId r1) = true →
  hyphenFree (Attendance.studentId r2) = true →
  hyphenFree (Attendance.classId r2) = true →
  hyphenFree (Attendance.instructorId r2) = true →
  attendanceDocId isoDay r1 = attendanceDocId isoDay r2 →
  Attendance.studentId r1 = Attendance.studentId r2
  ∧ Attendance.classId r1 = Attendance.classId r2
  ∧ Attendance.instructorId r1 = Attendance.instructorId r2
  ∧ isoDay (Attendance.date r1) = isoDay (Attendance.date r2).
Proof.
  intros Hs1 Hc1 Hi1 Hs2 Hc2 Hi2. unfold attendanceDocId. intros Heq.
  apply hyphen_split in Heq as [Hs Heq]; [|done..].
  apply hyphen_split in Heq as [Hc Heq]; [|done..].
  apply hyphen_split in Heq as [Hi Heq]; [|done..].
  done.
Qed.

Lemma addAttendance_comm c1 u1 r1 c2 u2 r2 m :
  attendanceDocId isoDay r1 ≠ attendanceDocId isoDay r2 →
  addAttendance isoDay c1 u1 r1 (addAttendance isoDay c2 u2 r2 m)
  = addAttendance isoDay c2 u2 r2 (addAttendance isoDay c1 u1 r1 m).
Proof.
  intros Hne. unfold addAttendance, setDocMerge.
  rewrite !lookup_insert_ne by done. by apply insert_insert_ne.
Qed.

Lemma saveAll_cons w writes m :
  saveAll isoDay (w :: writes) m
  = saveAll isoDay writes (addAttendance isoDay w.1.1 w.1.2 w.2 m).
Proof. done. Qed.

(** X17. The writes of a batch commute: when the records of the batch
    have pairwise different document ids, the collection after the batch
    does not depend on the order in which the store applies the
    writes. *)
Theorem saveAll_order_independent writes writes' m :
  NoDup (map (fun w => attendanceDocId isoDay w.2) writes) →
  writes ≡ₚ writes' →
  saveAll isoDay writes m = saveAll isoDay writes' m.
Proof.
  intros Hnd Hp. revert m Hnd.
  induction Hp as [|w l l' Hp IH|w1 w2 l|l1 l2 l3 Hp1 IH1 Hp2 IH2];
    intros m Hnd.
  - done.
  - rewrite !saveAll_cons. apply IH.
    cbn [map] in Hnd. by apply NoDup_cons in Hnd as [_ ?].
  - rewrite !saveAll_cons.
    rewrite (addAttendance_comm w1.1.1 w1.1.2 w1.2 w2.1.1 w2.1.2 w2.2);
      [done|].
    cbn [map] in Hnd. apply NoDup_cons in Hnd as [Hin _].
    intros Heq. apply Hin. rewrite Heq. by left.
  - rewrite IH1 by done. apply IH2.
    assert (Hp' : map (fun w => attendanceDocId isoDay w.2) l1
                  ≡ₚ map (fun w => attendanceDocId isoDay w.2) l2)
      by by apply Permutation_map.
    by rewrite <- Hp'.
Qed.

(** X18. After a batch whose records have pairwise different document
    ids, the document of each record holds the fields written for it,
    merged over what was stored before the batch, and every document
    with another id is as it was. *)
Theorem saveAll_lookup writes m :
  NoDup (map (fun w => attendanceDocId isoDay w.2) writes) →
  (∀ c u r, (c, u, r) ∈ writes →
     saveAll isoDay writes m !! attendanceDocId isoDay r
     = Some (attendanceData c u r
             ∪ default ∅ (m !! attendanceDocId isoDay r)))
  ∧ ∀ k, k ∉ map (fun w => attendanceDocId isoDay w.2) writes →
      saveAll isoDay writes m !! k = m !! k.
Proof.
  revert m. induction writes as [|[[c0 u0] r0] l IH]; intros m Hnd.
  { split; [|done]. intros c u r Hin. by apply not_elem_of_nil in Hin. }
  cbn [map] in Hnd. apply NoDup_cons in Hnd as [Hr0 Hnd].
  cbn [snd] in Hr0.
  destruct (IH (addAttendance isoDay c0 u0 r0 m) Hnd) as [IHin IHout].
  split.
  - intros c u r [Heq|Hin]%elem_of_cons; rewrite saveAll_cons;
      cbn [fst snd].
    + injection Heq as -> -> ->. rewrite IHout by done.
      by rewrite lookup_addAttendance, decide_True.
    + rewrite (IHin c u r Hin).
      rewrite lookup_addAttendance, decide_False; [done|].
      intros Heq. apply Hr0. rewrite <- Heq.
      apply list_elem_of_In, in_map_iff. exists (c, u, r).
      split; [done|]. by apply list_elem_of_In.
  - intros k Hk. cbn [map] in Hk. apply not_elem_of_cons in Hk as [Hk0 Hk].
    rewrite saveAll_cons. cbn [fst snd]. rewrite IHout by done.
    by rewrite lookup_addAttendance, decide_False.
Qed.

Variable parseDate : string → Z.

Lemma recordsToSave_docIds cid iid date statuses :
  NoDup (map (attendanceDocId isoDay)
           (attendanceRecordsToSave parseDate cid iid date statuses)).
Proof.
  unfold attendanceRecordsToSave. rewrite map_map.
  set (suffix := "-" +:+ cid +:+ "-" +:+ iid +:+ "-"
                 +:+ isoDay (parseDate date)).
  assert (Hmap : map (fun x : string * string =>
                        attendanceDocId isoDay
                          {| Attendance.studentId := x.1;
                             Attendance.classId := cid;
                             Attendance.instructorId := iid;
                             Attendance.date := parseDate date;
                             Attendance.status := x.2 |})
                   (map_to_list statuses)
                 = (fun sid => sid +:+ suffix) <$> (map_to_list statuses).*1).
  { rewrite <- list_fmap_compose. done. }
  rewrite Hmap. apply NoDup_fmap_2; [|apply NoDup_fst_map_to_list].
  intros s1 s2. apply string_append_inj_r.
Qed.

(** X19. Saving the attendance form: the records built from the status
    map have pairwise different document ids, and after their writes, in
    whatever order and with whatever clock readings, the document of
    every student of the map holds the status chosen for that student. *)
Theorem attendance_form_saved cid iid date statuses writes m sid status :
  map snd writes
  ≡ₚ attendanceRecordsToSave parseDate cid iid date statuses →
  statuses !! sid = Some status →
  saveAll isoDay writes m
  !! attendanceDocId isoDay
       {| Attendance.studentId := sid; Attendance.classId := cid;
          Attendance.instructorId := iid;
          Attendance.date := parseDate date;
          Attendance.status := status |}
  ≫= (fun d => d !! "status")
  = Some (Attendance.VStr status).
Proof.
  intros Hp Hs.
  set (r := {| Attendance.studentId := sid; Attendance.classId := cid;
               Attendance.instructorId := iid;
               Attendance.date := parseDate date;
               Attendance.status := status |}).
  assert (Hnd : NoDup (map (fun w => attendanceDocId isoDay w.2) writes)).
  { rewrite <- (map_map snd (attendanceDocId isoDay)).
    assert (Hp' : map (attendanceDocId isoDay) (map snd writes)
                  ≡ₚ map (attendanceDocId isoDay)
                       (attendanceRecordsToSave parseDate cid iid date
                          statuses))
      by by apply Permutation_map.
    rewrite Hp'. apply recordsToSave_docIds. }
  assert (Hin : r ∈ map snd writes).
  { rewrite Hp. unfold attendanceRecordsToSave.
    apply list_elem_of_In, in_map_iff. exists (sid, status).
    split; [done|]. by apply list_elem_of_In, elem_of_map_to_list. }
  apply list_elem_of_In, in_map_iff in Hin as ([[c u] r'] & Hr & Hin).
  simpl in Hr. subst r'. apply list_elem_of_In in Hin.
  rewrite (proj1 (saveAll_lookup writes m Hnd) c u r Hin). simpl.
  by apply lookup_union_Some_l.
Qed.

(** X20. [handleSubmitAttendance] saves only when a class, an instructor
    and a date are chosen and at least one status is recorded; it then
    saves one record for each student of the status map. *)
Theorem handleSubmitAttendance_saves cid iid date statuses records :
  handleSubmitAttendance parseDate cid iid date statuses = Save records →
  cid ≠ "" ∧ iid ≠ "" ∧ date ≠ "" ∧ statuses ≠ ∅
  ∧ length records = size statuses
  ∧ ∀ r, r ∈ records ↔
      statuses !! Attendance.studentId r = Some (Attendance.status r)
      ∧ Attendance.classId r = cid ∧ Attendance.instructorId r = iid
      ∧ Attendance.date r = parseDate date.
Proof.
  unfold handleSubmitAttendance.
  destruct (truthy cid) eqn:Hc; [|done].
  destruct (truthy iid) eqn:Hi; [|done].
  destruct (truthy date) eqn:Hd; [|done]. simpl.
  case_bool_decide as Hsz; [done|]. intros [= <-].
  apply bool_decide_eq_true in Hc, Hi, Hd.
  split_and!; [done..| | |].
  - intros ->. by rewrite map_size_empty in Hsz.
  - unfold attendanceRecordsToSave.
    by rewrite length_map, length_map_to_list.
  - intros r. unfold attendanceRecordsToSave.
    rewrite list_elem_of_In, in_map_iff. split.
    + intros ([sid status] & <- & Hin). simpl.
      apply list_elem_of_In, elem_of_map_to_list in Hin. done.
    + intros (Hs & <- & <- & <-).
      exists (Attendance.studentId r, Attendance.status r).
      split; [by destruct r|]. by apply list_elem_of_In, elem_of_map_to_list.
Qed.
End AttendanceMore.

Example parseDay_examples :
  parseDay "1970-01-01" = 0
  ∧ parseDay "2024-03-05" = 1709596800000
  ∧ isoDate (parseDay "2000-02-29") = "2000-02-29"
  ∧ isoDate (parseDay "2099-12-31") = "2099-12-31".
Proof. by vm_compute. Qed.

Lemma attendanceDocId_injective_witness :
  Attendance.studentId (attended "present" 0)
  = Attendance.studentId (attended "absent" 7200000).
Proof.
  refine (proj1 (attendanceDocId_injective isoDate (attended "present" 0)
                   (attended "absent" 7200000) _ _ _ _ _ _ _));
    vm_compute; reflexivity.
Defined.

Lemma saveAll_order_independent_witness :
  saveAll isoDate
    [(1000, 1000, attended "present" 0);
     (2000, 2000, attended "late" 86400000)] ∅
  = saveAll isoDate
      [(2000, 2000, attended "late" 86400000);
       (1000, 1000, attended "present" 0)] ∅.
Proof.
  refine (saveAll_order_independent isoDate _ _ ∅ _ _).
  - cbn [map]. apply NoDup_cons. split; [|apply NoDup_singleton].
    intros Hin%list_elem_of_singleton. vm_compute in Hin. discriminate.
  - apply perm_swap.
Defined.

Lemma saveAll_lookup_witness :
  saveAll isoDate [(1000, 1000, attended "present" 0)] ∅
  !! attendanceDocId isoDate (attended "present" 0)
  ≫= (fun d => d !! "status")
  = Some (Attendance.VStr "present").
Proof.
  assert (Hnd : NoDup (map (fun w : Z * Z * Attendance.record =>
                              attendanceDocId isoDate w.2)
                         [(1000, 1000, attended "present" 0)])).
  { cbn [map]. apply NoDup_singleton. }
  rewrite (proj1 (saveAll_lookup isoDate
                    [(1000, 1000, attended "present" 0)] ∅ Hnd)
             1000 1000 (attended "present" 0) ltac:(by left)).
  reflexivity.
Defined.

Lemma attendance_form_saved_witness :
  saveAll isoDate
    (map (fun r => (1000, 2000, r))
       (attendanceRecordsToSave parseDay "C1" "I1" "2024-03-05"
          someStatuses)) ∅
  !! "S2-C1-I1-2024-03-05"
  ≫= (fun d => d !! "status")
  = Some (Attendance.VStr "late").
Proof.
  refine (attendance_form_saved isoDate parseDay "C1" "I1" "2024-03-05"
            someStatuses _ ∅ "S2" "late" _ _).
  - rewrite map_map. simpl. by rewrite map_id.
  - reflexivity.
Defined.

Lemma handleSubmitAttendance_saves_witness :
  length (attendanceRecordsToSave parseDay "C1" "I1" "2024-03-05"
            someStatuses)
  = size someStatuses.
Proof.
  refine (proj1 (proj2 (proj2 (proj2 (proj2
            (handleSubmitAttendance_saves parseDay "C1" "I1" "2024-03-05"
               someStatuses _ _)))))).
  vm_compute. reflexivity.
Defined.

(** ** CSV export *)

Lemma doubleQuotes_inj s1 s2 : doubleQuotes s1 = doubleQuotes s2 → s1 = s2.
Proof.
  revert s2. induction s1 as [|c1 s1 IH]; intros [|c2 s2]; simpl.
  - done.
  - by case_bool_decide.
  - by case_bool_decide.
  - repeat case_bool_decide; intros Heq; simplify_eq; f_equal; auto.
Qed.

Lemma includesChar_doubleQuotes c s :
  c ≠ quoteChar → includesChar c (doubleQuotes s) = includesChar c s.
Proof.
  intros Hc. induction s as [|c' s IH]; [done|]. simpl.
  case_bool_decide as Hq; simpl; rewrite IH; [|done].
  subst c'. by rewrite !bool_decide_eq_false_2 by done.
Qed.

Lemma includesChar_append c s t :
  includesChar c (s +:+ t) = includesChar c s || includesChar c t.
Proof.
  induction s as [|c' s IH]; [done|].
  rewrite string_append_cons. simpl. rewrite IH. by rewrite orb_assoc.
Qed.

Lemma countChar_append c s t :
  countChar c (s +:+ t) = (countChar c s + countChar c t)%nat.
Proof.
  induction s as [|c' s IH]; [done|].
  rewrite string_append_cons. simpl. rewrite IH. lia.
Qed.

Lemma countChar_doubleQuotes s :
  countChar quoteChar (doubleQuotes s) = (2 * countChar quoteChar s)%nat.
Proof.
  induction s as [|c s IH]; [done|]. simpl.
  case_bool_decide as Hq; simpl.
  - rewrite ?bool_decide_eq_true_2 by done. lia.
  - rewrite ?bool_decide_eq_false_2 by done. lia.
Qed.

(** Whether a value needs the enclosing quotes. *)
Lemma csvField_cases value :
  (includesChar commaChar value || includesChar newlineChar value = true
   ∧ csvField value
     = String quoteChar
         (doubleQuotes value +:+ String quoteChar EmptyString))
  ∨ (includesChar commaChar value || includesChar newlineChar value = false
     ∧ csvField value = doubleQuotes value).
Proof.
  unfold csvField. rewrite !includesChar_doubleQuotes by done.
  destruct (_ || _); [left|right]; done.
Qed.

(** X21. The text written for a value determines the value: two
    different values never get the same field text. *)
Theorem csvField_injective v1 v2 : csvField v1 = csvField v2 → v1 = v2.
Proof.
  destruct (csvField_cases v1) as [[H1 ->]|[H1 ->]],
    (csvField_cases v2) as [[H2 ->]|[H2 ->]]; intros Heq.
  - injection Heq as Heq. apply string_append_inj_r in Heq.
    by apply doubleQuotes_inj.
  - exfalso.
    assert (Hc : ∀ c, c ≠ quoteChar →
              includesChar c (doubleQuotes v2) = includesChar c v1).
    { intros c Hc. rewrite <- Heq. simpl.
      rewrite bool_decide_eq_false_2 by done. simpl.
      rewrite includesChar_append, includesChar_doubleQuotes by done.
      simpl. rewrite bool_decide_eq_false_2 by done.
      by rewrite !orb_false_r. }
    pose proof (Hc commaChar ltac:(done)) as Hcomma.
    pose proof (Hc newlineChar ltac:(done)) as Hnl.
    rewrite includesChar_doubleQuotes in Hcomma, Hnl by done.
    rewrite <- Hcomma, <- Hnl in H1. congruence.
  - exfalso.
    assert (Hc : ∀ c, c ≠ quoteChar →
              includesChar c (doubleQuotes v1) = includesChar c v2).
    { intros c Hc. rewrite Heq. simpl.
      rewrite bool_decide_eq_false_2 by done. simpl.
      rewrite includesChar_append, includesChar_doubleQuotes by done.
      simpl. rewrite bool_decide_eq_false_2 by done.
      by rewrite !orb_false_r. }
    pose proof (Hc commaChar ltac:(done)) as Hcomma.
    pose proof (Hc newlineChar ltac:(done)) as Hnl.
    rewrite includesChar_doubleQuotes in Hcomma, Hnl by done.
    rewrite <- Hcomma, <- Hnl in H2. congruence.
  - by apply doubleQuotes_inj.
Qed.

Lemma csvField_injective_witness :
  "a,b" = String "a" (String commaChar (String "b" EmptyString)).
Proof.
  refine (csvField_injective "a,b"
            (String "a" (String commaChar (String "b" EmptyString))) _).
  reflexivity.
Defined.

(** X22. Every field text has an even number of quote characters: each
    quote of the value is written twice, and the enclosing quotes, put
    exactly when the value has a comma or a line break, come in a pair.
    A value without quote, comma and line break is written as it is. *)
Theorem csvField_quotes value :
  countChar quoteChar (csvField value)
  = (2 * countChar quoteChar value
     + (if includesChar commaChar value || includesChar newlineChar value
        then 2 else 0))%nat
  ∧ (countChar quoteChar value = 0%nat →
     includesChar commaChar value = false →
     includesChar newlineChar value = false →
     csvField value = value).
Proof.
  split.
  - destruct (csvField_cases value) as [[H ->]|[H ->]]; rewrite H.
    + simpl. rewrite ?bool_decide_eq_true_2 by done.
      rewrite countChar_append, countChar_doubleQuotes. simpl.
      rewrite ?bool_decide_eq_true_2 by done. lia.
    + rewrite countChar_doubleQuotes. lia.
  - intros Hq Hc Hn.
    destruct (csvField_cases value) as [[H _]|[_ ->]];
      [by rewrite Hc, Hn in H|].
    clear Hc Hn. induction value as [|c s IH]; [done|].
    simpl in *. case_bool_decide; [done|]. f_equal. by apply IH.
Qed.

Lemma csvField_quotes_witness : csvField "Sara" = "Sara".
Proof.
  refine (proj2 (csvField_quotes "Sara") _ _ _); reflexivity.
Defined.

Lemma countChar_doubleQuotes_other c s :
  c ≠ quoteChar → countChar c (doubleQuotes s) = countChar c s.
Proof.
  intros Hc. induction s as [|c' s IH]; [done|]. simpl.
  case_bool_decide as Hq; simpl; rewrite IH; [|done].
  subst c'. by rewrite !bool_decide_eq_false_2 by done.
Qed.

Lemma countChar_csvField c value :
  c ≠ quoteChar → countChar c (csvField value) = countChar c value.
Proof.
  intros Hc. destruct (csvField_cases value) as [[_ ->]|[_ ->]].
  - simpl. rewrite bool_decide_eq_false_2 by done.
    rewrite countChar_append, countChar_doubleQuotes_other by done.
    simpl. rewrite bool_decide_eq_false_2 by done. lia.
  - by apply countChar_doubleQuotes_other.
Qed.

Lemma countChar_join c sep parts :
  countChar c (join sep parts)
  = (sum_list (countChar c <$> parts)
     + pred (length parts) * countChar c sep)%nat.
Proof.
  induction parts as [|x [|y parts] IH]; [done|simpl; lia|].
  change (join sep (x :: y :: parts))
    with (x +:+ sep +:+ join sep (y :: parts)).
  rewrite !countChar_append, IH. simpl. lia.
Qed.

(** X23. [exportToCsv] makes no file for an empty table.  For a table
    with rows, when no key of the first row and no value contains a line
    break, the text has exactly one line break per row: the header line
    and one line for each row, without a line break at the end. *)
Theorem exportToCsv_lines filename rows :
  exportToCsv true filename [] = NoData
  ∧ (rows ≠ [] →
     Forall (fun key => countChar newlineChar key = 0%nat)
       (map fst (default [] (head rows))) →
     Forall (Forall (fun entry => countChar newlineChar entry.2 = 0%nat))
       rows →
     exportToCsv true filename rows = Download filename (csvText rows)
     ∧ countChar newlineChar (csvText rows) = length rows).
Proof.
  split; [done|]. intros Hrows Hkeys Hvals. split.
  { unfold exportToCsv. rewrite bool_decide_eq_false_2; [done|].
    by destruct rows. }
  assert (Hsum : ∀ (A : Type) (f : A → string) (l : list A),
            Forall (fun x => countChar newlineChar (f x) = 0%nat) l →
            sum_list (countChar newlineChar <$> map f l) = 0%nat).
  { intros A f l Hl. induction Hl as [|x l Hx _ IH]; [done|].
    simpl. rewrite Hx. exact IH. }
  assert (Hline : ∀ row,
            Forall (fun entry => countChar newlineChar entry.2 = 0%nat) row →
            countChar newlineChar (csvLine row) = 0%nat).
  { intros row Hrow. unfold csvLine. rewrite countChar_join.
    rewrite Hsum; [simpl; lia|].
    eapply Forall_impl; [exact Hrow|]. intros entry He. simpl.
    by rewrite countChar_csvField. }
  unfold csvText. rewrite countChar_join. cbn [length pred fmap list_fmap].
  simpl sum_list. rewrite countChar_join.
  rewrite (Hsum _ fst) by by apply Forall_fmap in Hkeys.
  rewrite (Hsum _ csvLine).
  - rewrite !length_map. simpl. lia.
  - eapply Forall_impl; [exact Hvals|]. intros row Hrow. by apply Hline.
Qed.

Lemma exportToCsv_lines_witness :
  countChar newlineChar
    (csvText
       (map rowEntries
          (collectExport ["C1"; "C2"] sharedClasses sharedStudents).2))
  = 1%nat.
Proof.
  refine (proj2 (proj2 (exportToCsv_lines "student_data_by_class.csv"
                          (map rowEntries
                             (collectExport ["C1"; "C2"] sharedClasses
                                sharedStudents).2)) _ _ _)).
  - done.
  - vm_compute. repeat constructor.
  - vm_compute. repeat constructor.
Defined.

(** ** Class lists name students that exist *)

Lemma exec_listsPresent op st :
  consistent st → listsPresent st →
  admissible st op → targetsPresent st op →
  listsPresent (exec op st).
Proof.
  intros [Hag Hne] Hpres Hadm Htarget cid c sid.
  destruct op as [newId d|studentId d|studentId|classId]; cbn [exec].
  - rewrite addStudent_classes, addStudent_students.
    destruct (classesCol st !! cid) as [c0|] eqn:Hc0; [|by case_decide].
    intros Hc Hin.
    assert (Hcase : sid = newId ∨ sid ∈ Class.students c0).
    { case_decide; simpl in Hc; simplify_eq; [|by right].
      rewrite students_withStudents in Hin. set_solver. }
    destruct Hcase as [->|Hin0]; [by rewrite lookup_insert_eq|].
    destruct (Hpres cid c0 sid Hc0 Hin0) as [s Hs].
    destruct (decide (newId = sid)) as [->|Hsid];
      [by rewrite lookup_insert_eq|].
    by rewrite lookup_insert_ne.
  - destruct Htarget as [s0 Hs0].
    rewrite updateStudent_classes, updateStudent_students, lookup_updateIn.
    cbv zeta.
    destruct (classesCol st !! cid) as [c0|] eqn:Hc0;
      [|by repeat case_decide].
    intros Hc Hin.
    assert (Hcase : sid = studentId ∨ sid ∈ Class.students c0).
    { repeat case_decide; simpl in Hc; simplify_eq;
        rewrite ?students_withStudents in Hin; try (by right).
      - set_solver.
      - apply list_elem_of_filter in Hin as [_ Hin]. by right. }
    destruct Hcase as [->|Hin0].
    + rewrite decide_True, Hs0 by done. simpl. by eexists.
    + destruct (Hpres cid c0 sid Hc0 Hin0) as [s Hs].
      destruct (decide (studentId = sid)); rewrite Hs; simpl; by eexists.
  - rewrite deleteStudent_classes, deleteStudent_students. cbv zeta.
    destruct (classesCol st !! cid) as [c0|] eqn:Hc0; [|by case_decide].
    intros Hc Hin.
    assert (Hcase : sid ≠ studentId ∧ sid ∈ Class.students c0).
    { case_decide as Hd; simpl in Hc; simplify_eq.
      - rewrite students_withStudents in Hin.
        apply list_elem_of_filter in Hin as [? ?]. done.
      - split; [|done]. intros ->.
        destruct (Hpres cid c studentId Hc0 Hin) as [s Hs].
        apply Hd. rewrite (classIdOf_Some _ _ _ Hs).
        pose proof (proj2 (Hag studentId s cid c Hs Hc0) Hin) as Hcls.
        split; [|done]. rewrite Hcls. simpl. apply bool_decide_eq_true.
        intros ->. unfold classIdsNonEmpty in Hne. congruence. }
    destruct Hcase as [Hsid Hin0].
    rewrite lookup_delete_ne by done. by eapply Hpres.
  - rewrite deleteClass_classes, deleteClass_students.
    intros [_ Hc]%lookup_delete_Some Hin.
    rewrite fmap_is_Some. by eapply Hpres.
Qed.

(** X24. The class lists name only students that exist: starting from a
    consistent store in which this holds, it still holds after any
    sequence of [addStudent], [updateStudent], [deleteStudent] and
    [deleteClass] calls in which [updateStudent] is applied to students
    of the collection. *)
Theorem class_lists_name_students st ops st' :
  consistent st → listsPresent st →
  runs (fun st op => admissible st op ∧ targetsPresent st op) st ops st' →
  ∀ cid c sid,
    classesCol st' !! cid = Some c → sid ∈ Class.students c →
    is_Some (studentsCol st' !! sid).
Proof.
  intros Hc Hpres Hr.
  induction Hr as [|st op ops st' [Hadm Htarget] _ IH]; [done|].
  apply IH.
  - by apply exec_consistent.
  - by apply exec_listsPresent.
Qed.

Lemma class_lists_name_students_witness :
  listsPresent
    (exec (DeleteStudent "S1")
       (exec (AddStudent "S1" (studentIn (Some "C1"))) twoClasses)).
Proof.
  refine (class_lists_name_students twoClasses
            [AddStudent "S1" (studentIn (Some "C1")); DeleteStudent "S1"]
            _ _ _ _).
  - apply twoClasses_consistent.
  - apply twoClasses_listsPresent.
  - apply runs_cons; [split; [by apply twoClasses_unused|exact I]|].
    apply runs_cons; [split; exact I|apply runs_nil].
Defined.
